(** * ASML reticle template: Code-39 barcode generator and layer resolver

    A shallow embedding of [ASMLtemplate_barcode_v2.py] and the properties
    of its barcode encoder, geometry renderer, text centring, layer-conflict
    resolution and interactive validation.

    Modelling conventions.
    - Python floats are embedded as exact rationals [Q].  The bar widths and
      the bar height of the script are integers in binary64 (see [Binary64]
      and [binary64_constants]), so on the symbology table the embedding is
      exact; on arbitrary coordinates it describes the algorithm up to
      rounding.
    - Python [str] is embedded as [string]; a one-character string (a key of
      [codedict], an element obtained by iterating a string) is an [ascii].
      A character is a code point below 256.  [str.upper] is its map on
      these characters, with the sharp s becoming [SS]; [str.lower] is only
      compared with ASCII words and is its ASCII map.
    - Python sets and dicts are [gset] and [gmap]; exceptions are the left
      summand of [result].
    - [input] reads from an explicit list of pending operator lines and
      [print] appends to an explicit list of printed lines. *)

From Stdlib Require Import QArith Qabs Qminmax Lqa Floats Ascii String Sorted.
From stdpp Require Import gmap strings list fin_maps pretty.

(** ** Exceptions *)

Inductive exn : Type :=
| InvalidBarcodeLength (barcode : string)
| InvalidBarcodeCharacter (character : ascii)
| KeyError (key : ascii)
| StopIteration.

Definition result (A : Type) : Type := (exn + A)%type.

Definition raise {A : Type} (e : exn) : result A := inl e.

#[global] Instance result_ret : MRet result := fun _ a => inr a.
#[global] Instance result_bind : MBind result := fun _ _ k m =>
  match m with
  | inl e => inl e
  | inr a => k a
  end.

(** ** Barcode constants and dictionary (lines 36-72) *)

#[local] Set Warnings "-inexact-float".

(** The constant expressions of the script, evaluated in IEEE binary64. *)
Module Binary64.
Definition scale : float := 1e3%float.
Definition barheight : float := (5 * scale)%float.
Definition wb : float := (0.450 * scale)%float.
Definition ns : float := (-0.200 * scale)%float.
Definition nb : float := (0.200 * scale)%float.
Definition ws : float := (-0.450 * scale)%float.
End Binary64.

Definition scale : Q := 1e3.
Definition barheight : Q := 5 * scale.
Definition quiet_zone : Q := 8 * scale.
Definition wb : Q := 0.450 * scale.
Definition ns : Q := -0.200 * scale.
Definition nb : Q := 0.200 * scale.
Definition ws : Q := -0.450 * scale.

Definition startstop : list Q := [nb; ws; nb; ns; wb; ns; wb; ns; nb; ns].

Definition codedict_items : list (ascii * list Q) := [
  ("A"%char, [wb; ns; nb; ns; nb; ws; nb; ns; wb; ns]);
  ("B"%char, [nb; ns; wb; ns; nb; ws; nb; ns; wb; ns]);
  ("C"%char, [wb; ns; wb; ns; nb; ws; nb; ns; nb; ns]);
  ("D"%char, [nb; ns; nb; ns; wb; ws; nb; ns; wb; ns]);
  ("E"%char, [wb; ns; nb; ns; wb; ws; nb; ns; nb; ns]);
  ("F"%char, [nb; ns; wb; ns; wb; ws; nb; ns; nb; ns]);
  ("G"%char, [nb; ns; nb; ns; nb; ws; wb; ns; wb; ns]);
  ("H"%char, [wb; ns; nb; ns; nb; ws; wb; ns; nb; ns]);
  ("I"%char, [nb; ns; wb; ns; nb; ws; wb; ns; nb; ns]);
  ("J"%char, [nb; ns; nb; ns; wb; ws; wb; ns; nb; ns]);
  ("K"%char, [wb; ns; nb; ns; nb; ns; nb; ws; wb; ns]);
  ("L"%char, [nb; ns; wb; ns; nb; ns; nb; ws; wb; ns]);
  ("M"%char, [wb; ns; wb; ns; nb; ns; nb; ws; nb; ns]);
  ("N"%char, [nb; ns; nb; ns; wb; ns; nb; ws; wb; ns]);
  ("O"%char, [wb; ns; nb; ns; wb; ns; nb; ws; nb; ns]);
  ("P"%char, [nb; ns; wb; ns; wb; ns; nb; ws; nb; ns]);
  ("Q"%char, [nb; ns; nb; ns; nb; ns; wb; ws; wb; ns]);
  ("R"%char, [wb; ns; nb; ns; nb; ns; wb; ws; nb; ns]);
  ("S"%char, [nb; ns; wb; ns; nb; ns; wb; ws; nb; ns]);
  ("T"%char, [nb; ns; nb; ns; wb; ns; wb; ws; nb; ns]);
  ("U"%char, [wb; ws; nb; ns; nb; ns; nb; ns; wb; ns]);
  ("V"%char, [nb; ws; wb; ns; nb; ns; nb; ns; wb; ns]);
  ("W"%char, [wb; ws; wb; ns; nb; ns; nb; ns; nb; ns]);
  ("X"%char, [nb; ws; nb; ns; wb; ns; nb; ns; wb; ns]);
  ("Y"%char, [wb; ws; nb; ns; wb; ns; nb; ns; nb; ns]);
  ("Z"%char, [nb; ws; wb; ns; wb; ns; nb; ns; nb; ns]);
  ("1"%char, [wb; ns; nb; ws; nb; ns; nb; ns; wb; ns]);
  ("2"%char, [nb; ns; wb; ws; nb; ns; nb; ns; wb; ns]);
  ("3"%char, [wb; ns; wb; ws; nb; ns; nb; ns; nb; ns]);
  ("4"%char, [nb; ns; nb; ws; wb; ns; nb; ns; wb; ns]);
  ("5"%char, [wb; ns; nb; ws; wb; ns; nb; ns; nb; ns]);
  ("6"%char, [nb; ns; wb; ws; wb; ns; nb; ns; nb; ns]);
  ("7"%char, [nb; ns; nb; ws; nb; ns; wb; ns; wb; ns]);
  ("8"%char, [wb; ns; nb; ws; nb; ns; wb; ns; nb; ns]);
  ("9"%char, [nb; ns; wb; ws; nb; ns; wb; ns; nb; ns]);
  ("0"%char, [nb; ns; nb; ws; wb; ns; wb; ns; nb; ns]);
  ("-"%char, [nb; ws; nb; ns; nb; ns; wb; ns; wb; ns]);
  ("."%char, [wb; ws; nb; ns; nb; ns; wb; ns; nb; ns]);
  ("$"%char, [nb; ws; nb; ws; nb; ws; nb; ns; nb; ns]);
  ("/"%char, [nb; ws; nb; ws; nb; ns; nb; ws; nb; ns]);
  ("+"%char, [nb; ws; nb; ns; nb; ws; nb; ws; nb; ns]);
  ("%"%char, [nb; ns; nb; ws; nb; ws; nb; ws; nb; ns]);
  (" "%char, [nb; ws; wb; ns; nb; ns; wb; ns; nb; ns])].

Definition codedict : gmap ascii (list Q) := list_to_map codedict_items.

(** [char in codedict] *)
Definition in_codedict (char : ascii) : bool :=
  bool_decide (is_Some (codedict !! char)).

(** ** str2code (lines 76-82) *)

(** The [for char in str2wrt] loop; [barcode] is the list built so far and
    [codedict[char]] raises [KeyError] on a missing key. *)
Fixpoint str2code_loop (str2wrt : string) (barcode : list Q) : result (list Q) :=
  match str2wrt with
  | EmptyString => mret barcode
  | String char rest =>
      match codedict !! char with
      | Some pattern => str2code_loop rest (barcode ++ pattern)
      | None => raise (KeyError char)
      end
  end.

Definition str2code (str2wrt : string) : result (list Q) :=
  let barcode := [] in
  let barcode := barcode ++ startstop in
  barcode ← str2code_loop str2wrt barcode;
  let barcode := barcode ++ startstop in
  mret barcode.

(** ** Strings *)

Definition is_lower (c : ascii) : bool :=
  let n := nat_of_ascii c in (97 <=? n)%nat && (n <=? 122)%nat.

Definition is_upper (c : ascii) : bool :=
  let n := nat_of_ascii c in (65 <=? n)%nat && (n <=? 90)%nat.

(** [c.upper()] for a character below 256.  It is a string, since the upper
    case of the sharp s (223) is [SS]; the other letters of the range
    (224-254 except the division sign 247) move down by 32 like a-z.  The
    upper cases of the micro sign (181) and of y with diaeresis (255) lie
    above 255: the two characters are kept, and like their upper cases they
    are no keys of the table. *)
Definition upper_char (c : ascii) : string :=
  let n := nat_of_ascii c in
  if is_lower c then String (ascii_of_nat (n - 32)) EmptyString
  else if (n =? 223)%nat then "SS"
  else if (224 <=? n)%nat && (n <=? 254)%nat && negb (n =? 247)%nat
  then String (ascii_of_nat (n - 32)) EmptyString
  else String c EmptyString.

Definition lower_char (c : ascii) : ascii :=
  if is_upper c then ascii_of_nat (nat_of_ascii c + 32) else c.

Fixpoint map_chars (f : ascii -> ascii) (s : string) : string :=
  match s with
  | EmptyString => EmptyString
  | String c rest => String (f c) (map_chars f rest)
  end.

(** [s.upper()]: character by character. *)
Fixpoint upper (s : string) : string :=
  match s with
  | EmptyString => EmptyString
  | String c rest => upper_char c +:+ upper rest
  end.

(** [s.lower()] *)
Definition lower (s : string) : string := map_chars lower_char s.

(** [s.endswith(suffix)] *)
Definition endswith (s suffix : string) : bool :=
  (String.length suffix <=? String.length s)%nat &&
  String.eqb
    (substring (String.length s - String.length suffix) (String.length suffix) s)
    suffix.

(** [needle in haystack] for strings *)
Fixpoint contains (needle haystack : string) {struct haystack} : bool :=
  String.prefix needle haystack ||
  match haystack with
  | EmptyString => false
  | String _ rest => contains needle rest
  end.

(** [all(char in codedict for char in s)] *)
Fixpoint all_in_codedict (s : string) : bool :=
  match s with
  | EmptyString => true
  | String char rest => in_codedict char && all_in_codedict rest
  end.

(** [next(char for char in s if char not in codedict)]; [None] stands for an
    exhausted generator. *)
Fixpoint next_not_in_codedict (s : string) : option ascii :=
  match s with
  | EmptyString => None
  | String char rest =>
      if negb (in_codedict char) then Some char else next_not_in_codedict rest
  end.

(** ** Exception messages (lines 20-32) *)

Definition InvalidBarcodeLength_message : string :=
  "Barcode must be between 1 and 12 characters long".

Definition InvalidBarcodeCharacter_message : string :=
  "Invalid Character in the Barcode String".

(** [str(e)]: the argument each class passes to [super().__init__]. *)
Definition exn_str (e : exn) : string :=
  match e with
  | InvalidBarcodeLength _ => InvalidBarcodeLength_message
  | InvalidBarcodeCharacter character =>
      InvalidBarcodeCharacter_message +:+ ": '" +:+ String character "'"
  | KeyError key => "'" +:+ String key "'"
  | StopIteration => EmptyString
  end.

(** ** Barcode input validation (lines 224-235) *)

(** The checks inside the [try] block, on the upper-cased label. *)
Definition check_barcode (barcode_label : string) : result string :=
  let len := String.length barcode_label in
  if negb ((1 <=? len)%nat && (len <=? 12)%nat) then
    raise (InvalidBarcodeLength barcode_label)
  else if negb (all_in_codedict barcode_label) then
    match next_not_in_codedict barcode_label with
    | Some invalid_char => raise (InvalidBarcodeCharacter invalid_char)
    | None => raise StopIteration
    end
  else mret barcode_label.

Definition barcode_prompt : string :=
  String "010" "Enter barcode (1-12 alphanumeric characters): ".

Definition barcode_error_line (e : exn) : string :=
  "Error: " +:+ exn_str e +:+
  ". Please use only A-Z, 0-9, and the characters: - . $ / + %".

Definition barcode_valid_line (barcode_label : string) : string :=
  "Barcode '" +:+ barcode_label +:+ "' is valid.".

(** How an interactive loop ends: with a value and the operator lines not yet
    consumed, with an uncaught exception, or because [input] met the end of
    the operator's input. *)
Inductive ended (A : Type) : Type :=
| Done (value : A) (pending : list string)
| Uncaught (e : exn)
| EndOfInput.
Arguments Done {A} value pending.
Arguments Uncaught {A} e.
Arguments EndOfInput {A}.

(** The [while True] loop; [pending] are the operator's future lines and
    [printed] what was written so far.  Only the two barcode exceptions are
    caught. *)
Fixpoint barcode_loop (pending : list string) (printed : list string)
  : ended string * list string :=
  match pending with
  | [] => (EndOfInput, printed ++ [barcode_prompt])
  | line :: pending =>
      let printed := printed ++ [barcode_prompt] in
      match check_barcode (upper line) with
      | inr barcode_label =>
          (Done barcode_label pending,
           printed ++ [barcode_valid_line barcode_label])
      | inl (InvalidBarcodeLength _ as e) | inl (InvalidBarcodeCharacter _ as e) =>
          barcode_loop pending (printed ++ [barcode_error_line e])
      | inl e => (Uncaught e, printed)
      end
  end.

(** ** Output file name (lines 237-239) *)

Definition output_name (output_gds_file : string) : string :=
  if negb (endswith (lower output_gds_file) ".gds")
  then output_gds_file +:+ ".gds"
  else output_gds_file.

(** ** Layout geometry (the part of gdstk the script uses) *)

Definition point : Type := Q * Q.

(** A polygon with at least one vertex.  [gdstk.rectangle] and [gdstk.text]
    only build such polygons, and for them [bounding_box()] returns a box. *)
Record Polygon : Type := mkPolygon {
  vertex0 : point;
  vertices : list point;
  layer : Z;
  datatype : Z
}.

(** A box [((min_x, min_y), (max_x, max_y))]. *)
Definition box : Type := point * point.

Definition box_add (b : box) (p : point) : box :=
  let '((min_x, min_y), (max_x, max_y)) := b in
  ((Qmin min_x (fst p), Qmin min_y (snd p)),
   (Qmax max_x (fst p), Qmax max_y (snd p))).

(** [poly.bounding_box()] *)
Definition bounding_box (poly : Polygon) : box :=
  fold_left box_add (vertices poly) (vertex0 poly, vertex0 poly).

Definition translate_point (dx dy : Q) (p : point) : point :=
  (fst p + dx, snd p + dy)%Q.

(** [poly.translate(dx, dy)] *)
Definition translate (dx dy : Q) (poly : Polygon) : Polygon :=
  {| vertex0 := translate_point dx dy (vertex0 poly);
     vertices := map (translate_point dx dy) (vertices poly);
     layer := layer poly;
     datatype := datatype poly |}.

(** [gdstk.rectangle(corner1, corner2, layer=, datatype=)] *)
Definition rectangle (corner1 corner2 : point) (layer datatype : Z) : Polygon :=
  {| vertex0 := corner1;
     vertices := [(fst corner2, snd corner1); corner2; (fst corner1, snd corner2)];
     layer := layer;
     datatype := datatype |}.

Record Cell : Type := mkCell {
  name : string;
  polygons : list Polygon
}.

(** [lib_ref.new_cell(name)]; the registration of the cell in the library is
    not modelled. *)
Definition new_cell (name : string) : Cell := {| name := name; polygons := [] |}.

(** [cell.add] of a list of polygons *)
Definition add (cell : Cell) (polys : list Polygon) : Cell :=
  {| name := name cell; polygons := polygons cell ++ polys |}.

(** ** barcad (lines 84-91) *)

(** One iteration of [for x in barcode], on the state [(code_cell, xcurr)]. *)
Definition barcad_step (layer_num datatype_num : Z) (st : Cell * Q) (x : Q)
  : Cell * Q :=
  let '(code_cell, xcurr) := st in
  let code_cell :=
    if Qlt_le_dec 0 x then
      add code_cell
        [rectangle (xcurr, - barheight / 2)%Q (xcurr + x, barheight / 2)%Q
           layer_num datatype_num]
    else code_cell in
  (code_cell, xcurr + Qabs x)%Q.

Definition barcad_loop (barcode : list Q) (layer_num datatype_num : Z) : Cell * Q :=
  fold_left (barcad_step layer_num datatype_num) barcode (new_cell "BARCODE", 0%Q).

Definition barcad (barcode : list Q) (layer_num datatype_num : Z) : Cell :=
  fst (barcad_loop barcode layer_num datatype_num).

(** ** From the barcode prompt to the barcode cell (lines 224-241) *)

Definition output_prompt : string :=
  String "010" "Enter name for the final output file (e.g., 'merged.gds'): ".

(** The barcode loop, the prompt for the output file name and the call
    [barcad(str2code(barcode_label), template_lib, barcode_target_layer)];
    the result is the name later given to [write_gds] and the barcode cell. *)
Definition barcode_stage (pending printed : list string) (barcode_target_layer : Z)
  : ended (string * Cell) * list string :=
  match barcode_loop pending printed with
  | (Done barcode_label pending, printed) =>
      match pending with
      | [] => (EndOfInput, printed ++ [output_prompt])
      | output_gds_file :: pending =>
          let printed := printed ++ [output_prompt] in
          let output_gds_file := output_name output_gds_file in
          match str2code barcode_label with
          | inr barcode =>
              (Done (output_gds_file, barcad barcode barcode_target_layer 0) pending,
               printed)
          | inl e => (Uncaught e, printed)
          end
      end
  | (Uncaught e, printed) => (Uncaught e, printed)
  | (EndOfInput, printed) => (EndOfInput, printed)
  end.

(** ** humancad and datecad (lines 93-121) *)

Definition box_union (b1 b2 : box) : box :=
  let '((min_x, min_y), (max_x, max_y)) := b1 in
  let '((bb_min_x, bb_min_y), (bb_max_x, bb_max_y)) := b2 in
  ((Qmin min_x bb_min_x, Qmin min_y bb_min_y),
   (Qmax max_x bb_max_x, Qmax max_y bb_max_y)).

Definition box_center (b : box) : point :=
  let '((min_x, min_y), (max_x, max_y)) := b in
  ((min_x + max_x) / 2, (min_y + max_y) / 2)%Q.

(** The body shared by both functions: [if text:] the box of [text[0]] is
    folded with the boxes of [text[1:]] and every polygon is translated by
    the negated centre. *)
Definition recenter (text : list Polygon) : list Polygon :=
  match text with
  | [] => text
  | first :: rest =>
      let b := fold_left (fun b poly => box_union b (bounding_box poly))
                 rest (bounding_box first) in
      let '(center_x, center_y) := box_center b in
      map (translate (- center_x) (- center_y)) text
  end.

Section Text.
(** [gdstk.text(text, size, position, layer=, datatype=)] and
    [datetime.today().strftime('%Y-%m-%d')] are supplied from outside. *)
Variable gdstk_text : string -> Q -> point -> Z -> Z -> list Polygon.
Variable today : string.

Definition humancad (str2wrt : string) (layer_num datatype_num : Z) : Cell :=
  let label_cell := new_cell "RETICLELABEL" in
  let text := gdstk_text str2wrt (4 * scale)%Q (0, 0)%Q layer_num datatype_num in
  let text := recenter text in
  add label_cell text.

Definition datecad (layer_num datatype_num : Z) : Cell :=
  let date_cell := new_cell "DATE" in
  let today_text := gdstk_text today (4 * scale)%Q (0, 0)%Q layer_num datatype_num in
  let today_text := recenter today_text in
  add date_cell today_text.
End Text.

(** The union bounding box of a list of polygons, [None] for no polygon. *)
Definition bounding_box_of (polys : list Polygon) : option box :=
  match polys with
  | [] => None
  | first :: rest =>
      Some (fold_left (fun b poly => box_union b (bounding_box poly))
              rest (bounding_box first))
  end.

(** ** Layer conflict resolution (lines 146-170) *)

(** A [(layer, datatype)] pair. *)
Definition ld : Type := Z * Z.

Definition barcode_layer_datatype : ld := (4, 0)%Z.

(** [max(user_layers) if user_layers else 0], on the elements of the set. *)
Definition max_or_0 (user_layers : list Z) : Z :=
  match user_layers with
  | [] => 0
  | layer :: layers => foldl Z.max layer layers
  end.

(** [template_lib.remap(remap_dict)] seen on the set of pairs in use: a pair
    that is a key of the table is replaced by its image. *)
Definition remap (remap_dict : gmap ld ld) (pairs : gset ld) : gset ld :=
  set_map (fun old_ld => default old_ld (remap_dict !! old_ld)) pairs.

(** What the block leaves behind: the table when one was built, the pairs of
    the template library after the block, and [barcode_target_layer].  The
    lines it prints are not modelled. *)
Record resolution : Type := mkResolution {
  remap_dict : option (gmap ld ld);
  template_pairs_after : gset ld;
  barcode_target_layer : Z
}.

Definition resolve (user_layers_datatypes template_layers_datatypes : gset ld)
  : resolution :=
  let all_template_layers_datatypes :=
    template_layers_datatypes ∪ {[ barcode_layer_datatype ]} in
  let conflicts := user_layers_datatypes ∩ all_template_layers_datatypes in
  if decide (conflicts ≠ ∅) then
    let user_layers : gset Z := set_map fst user_layers_datatypes in
    let max_user_layer := max_or_0 (elements user_layers) in
    let new_layer := (max_user_layer + 1)%Z in
    let remap_dict : gmap ld ld :=
      set_to_map (fun old_ld => (old_ld, (new_layer, snd old_ld)))
        all_template_layers_datatypes in
    {| remap_dict := Some remap_dict;
       template_pairs_after := remap remap_dict template_layers_datatypes;
       barcode_target_layer := new_layer |}
  else
    {| remap_dict := None;
       template_pairs_after := template_layers_datatypes;
       barcode_target_layer := fst barcode_layer_datatype |}.

(** The pair on which [barcad], [humancad] and [datecad] draw: they are
    called with [barcode_target_layer] and the default [datatype_num=0]. *)
Definition annotation_pair (r : resolution) : ld := (barcode_target_layer r, 0%Z).

(** ** Input file loops (lines 128-144) *)

Section Files.
(** [gdstk.read_gds]; [None] stands for a [FileNotFoundError] that reaches the
    handler.  Any other exception of [read_gds] ends the script and is not
    modelled. *)
Context {Library : Type}.
Variable read_gds : string -> option Library.

Definition not_found_line (gds_file : string) : string :=
  "Error: The file '" +:+ gds_file +:+ "' was not found. Please try again.".

Fixpoint load_loop (prompt : string) (loaded : string -> string)
    (pending : list string) (printed : list string)
  : ended Library * list string :=
  match pending with
  | [] => (EndOfInput, printed ++ [prompt])
  | gds_file :: pending =>
      let printed := printed ++ [prompt] in
      match read_gds gds_file with
      | Some lib => (Done lib pending, printed ++ [loaded gds_file])
      | None => load_loop prompt loaded pending (printed ++ [not_found_line gds_file])
      end
  end.

Definition load_template : list string -> list string -> ended Library * list string :=
  load_loop "Enter the name of the ASML template GDS file: "
    (fun f => "Successfully loaded template '" +:+ f +:+ "'.").

Definition load_user : list string -> list string -> ended Library * list string :=
  load_loop "Enter the name of your personal design GDS file: "
    (fun f => "Successfully loaded your design '" +:+ f +:+ "'.").
End Files.

(** ** Cell menu loop (lines 184-193) *)

Section Menu.
(** [int] applied to the operator's line; [None] stands for [ValueError]. *)
Variable int : string -> option Z.
Context {A : Type}.

Definition menu_prompt (n : nat) : string :=
  "Enter number of the cell to merge (1-" +:+ pretty n +:+ "): ".

Definition invalid_number_line : string := "Invalid number.".
Definition invalid_input_line : string := "Invalid input. Please enter a number.".

Fixpoint menu_loop (user_top_cells : list A)
    (pending : list string) (printed : list string)
  : ended (option A) * list string :=
  match pending with
  | [] => (EndOfInput, printed ++ [menu_prompt (length user_top_cells)])
  | line :: pending =>
      let printed := printed ++ [menu_prompt (length user_top_cells)] in
      match int line with
      | Some choice =>
          if ((1 <=? choice)%Z && (choice <=? Z.of_nat (length user_top_cells))%Z)
          then (Done (user_top_cells !! Z.to_nat (choice - 1)) pending, printed)
          else menu_loop user_top_cells pending (printed ++ [invalid_number_line])
      | None =>
          menu_loop user_top_cells pending (printed ++ [invalid_input_line])
      end
  end.
End Menu.

(** ** Scaling factor loop (lines 196-208) *)

Definition scale_prompt : string :=
  String "010" "Is your design at [w]afer scale or [r]eticle scale? (w/r): ".

Definition scale_invalid_line : string := "Invalid input. Please enter 'w' or 'r'.".

(** The loop ends with [scale_factor]. *)
Fixpoint scale_loop (pending : list string) (printed : list string)
  : ended Q * list string :=
  match pending with
  | [] => (EndOfInput, printed ++ [scale_prompt])
  | line :: pending =>
      let printed := printed ++ [scale_prompt] in
      let scale_input := lower line in
      if bool_decide (scale_input ∈ ["w"%string; "wafer"%string]) then
        (Done 4.0%Q pending, printed ++ ["Applying 4x magnification for wafer scale."%string])
      else if bool_decide (scale_input ∈ ["r"%string; "reticle"%string]) then
        (Done 1.0%Q pending, printed ++ ["Applying 1x magnification for reticle scale."%string])
      else scale_loop pending (printed ++ [scale_invalid_line])
  end.

(** ** Cell selection (lines 173-193) *)

(** How the selection ends: with the cell to merge and the operator lines not
    yet consumed, by [exit()], with an uncaught exception of the indexing
    [user_top_cells[choice - 1]], or at the end of the operator's input. *)
Inductive selection : Type :=
| Selected (user_cell_to_merge : Cell) (pending : list string)
| Exited
| IndexError
| NoMoreInput.

Definition CONTEXT_INFO : string := "$$$CONTEXT_INFO$$$".

(** The lines [print(f"  {i+1}: {cell.name}")] for [enumerate(cells)], counted
    from [i]. *)
Fixpoint menu_lines (i : nat) (cells : list Cell) : list string :=
  match cells with
  | [] => []
  | cell :: cells =>
      ("  " +:+ pretty (i + 1)%nat +:+ ": " +:+ name cell) :: menu_lines (S i) cells
  end.

Section Select.
Variable int : string -> option Z.

(** [top_level] is [user_lib.top_level()]. *)
Definition select_cell (top_level : list Cell)
    (pending : list string) (printed : list string)
  : selection * list string :=
  let user_top_cells :=
    List.filter (fun cell => negb (String.eqb (name cell) CONTEXT_INFO)) top_level in
  match user_top_cells with
  | [] => (Exited, printed ++ ["Error: No valid top-level cell found. Exiting."%string])
  | [user_cell_to_merge] =>
      (Selected user_cell_to_merge pending,
       printed ++ ["Using top-level cell: '" +:+ name user_cell_to_merge +:+ "'"])
  | _ =>
      let printed :=
        printed ++
        [String "010" "Multiple top-level cells found. Please choose one:"] ++
        menu_lines 0 user_top_cells in
      match menu_loop int user_top_cells pending printed with
      | (Done (Some user_cell_to_merge) pending, printed) =>
          (Selected user_cell_to_merge pending, printed)
      | (Done None _, printed) => (IndexError, printed)
      | (Uncaught _, printed) => (IndexError, printed)
      | (EndOfInput, printed) => (NoMoreInput, printed)
      end
  end.
End Select.

(** ** Vocabulary of the properties *)

(** The one-character strings obtained by iterating [s]. *)
Definition chars (s : string) : list ascii := list_ascii_of_string s.

(** [c] is a key of the symbology table. *)
Definition is_key (c : ascii) : Prop := is_Some (codedict !! c).

(** A bar token: its magnitude is the narrow or the wide width and it is not
    zero. *)
Definition bar_token (t : Q) : Prop :=
  (Qabs t == nb \/ Qabs t == wb)%Q /\ ~ (t == 0)%Q.

Definition bar_tokenb (t : Q) : bool :=
  (Qeq_bool (Qabs t) nb || Qeq_bool (Qabs t) wb) && negb (Qeq_bool t 0).

(** A symbol pattern: exactly ten bar tokens. *)
Definition symbol_pattern (pat : list Q) : Prop :=
  length pat = 10%nat /\ Forall bar_token pat.

Definition symbol_patternb (pat : list Q) : bool :=
  (length pat =? 10)%nat && forallb bar_tokenb pat.

(** The encodable characters, as the error line of the barcode prompt lists
    them, followed by the space. *)
Definition alphabet : string :=
  "ABCDEFGHIJKLMNOPQRSTUVWXYZ0123456789-.$/+% ".

(** The sum of the magnitudes of a token sequence. *)
Definition span (tokens : list Q) : Q :=
  foldr (fun t acc => Qabs t + acc)%Q 0%Q tokens.

(** The bars of a token sequence laid out from the cursor [x]: the left edge
    and the width of every positive token, in order. *)
Fixpoint bars (x : Q) (tokens : list Q) : list (Q * Q) :=
  match tokens with
  | [] => []
  | t :: tokens =>
      (if Qlt_le_dec 0 t then [(x, Qabs t)] else []) ++ bars (x + Qabs t)%Q tokens
  end.

(** The rectangle of a bar: [left, left + width] horizontally and
    [-barheight/2, +barheight/2] vertically. *)
Definition bar_rectangle (layer_num datatype_num : Z) (bar : Q * Q) : Polygon :=
  rectangle (fst bar, - barheight / 2)%Q (fst bar + snd bar, barheight / 2)%Q
    layer_num datatype_num.

Definition bar_right (bar : Q * Q) : Q := (fst bar + snd bar)%Q.

Definition is_ink (t : Q) : bool := if Qlt_le_dec 0 t then true else false.
Definition is_gap (t : Q) : bool := if Qlt_le_dec 0 (- t) then true else false.

(** Boxes up to equality of rationals, the translation of a box, and a box
    whose centre is the origin. *)
Definition box_eq (b1 b2 : box) : Prop :=
  (fst (fst b1) == fst (fst b2) /\ snd (fst b1) == snd (fst b2) /\
   fst (snd b1) == fst (snd b2) /\ snd (snd b1) == snd (snd b2))%Q.

Definition box_shift (dx dy : Q) (b : box) : box :=
  (translate_point dx dy (fst b), translate_point dx dy (snd b)).

(** The vertices of a polygon and of a list of polygons. *)
Definition poly_points (poly : Polygon) : list point :=
  vertex0 poly :: vertices poly.

Definition all_points (polys : list Polygon) : list point :=
  concat (poly_points <$> polys).

(** [b] is the extent of the points: no point lies outside of it and each of
    its four sides holds a point. *)
Definition extent (pts : list point) (b : box) : Prop :=
  Forall (fun p => fst (fst b) <= fst p /\ fst p <= fst (snd b) /\
                   snd (fst b) <= snd p /\ snd p <= snd (snd b))%Q pts /\
  Exists (fun p => fst p == fst (fst b))%Q pts /\
  Exists (fun p => fst p == fst (snd b))%Q pts /\
  Exists (fun p => snd p == snd (fst b))%Q pts /\
  Exists (fun p => snd p == snd (snd b))%Q pts.

(** [moved] is [poly] with every vertex displaced by [(dx, dy)]. *)
Definition moved_by (dx dy : Q) (poly moved : Polygon) : Prop :=
  layer moved = layer poly /\ datatype moved = datatype poly /\
  Forall2 (fun p q => fst q == fst p + dx /\ snd q == snd p + dy)%Q
    (poly_points poly) (poly_points moved).

(** [result] is [text] recentred: an empty [text] is left as it is; otherwise,
    with [min_x, max_x] by [min_y, max_y] the extent of all vertices of
    [text], every polygon is displaced by minus the centre
    ((min_x + max_x) / 2, (min_y + max_y) / 2), and the extent of all vertices
    of [result] has its centre at the origin. *)
Definition recentred (text result : list Polygon) : Prop :=
  (text = [] -> result = []) /\
  (text <> [] ->
   exists min_x min_y max_x max_y,
     extent (all_points text) ((min_x, min_y), (max_x, max_y)) /\
     Forall2 (moved_by (- ((min_x + max_x) / 2)) (- ((min_y + max_y) / 2)))%Q
       text result /\
     exists b',
       extent (all_points result) b' /\
       (fst (fst b') + fst (snd b') == 0 /\ snd (fst b') + snd (snd b') == 0)%Q).

(** A stand-in for [gdstk.text] on which the text functions can be run: one
    square of side [size] per character, laid out from [position]. *)
Fixpoint square_glyphs (text : string) (size : Q) (position : point)
    (layer datatype : Z) : list Polygon :=
  match text with
  | EmptyString => []
  | String _ rest =>
      rectangle position (fst position + size, snd position + size)%Q layer datatype
      :: square_glyphs rest size (fst position + size, snd position)%Q layer datatype
  end.

(** A stand-in for [int] on which the menu loop can be run: it reads
    unsigned decimal numerals and rejects every other line. *)
Fixpoint digits_value (s : string) (acc : Z) : option Z :=
  match s with
  | EmptyString => Some acc
  | String c rest =>
      let n := nat_of_ascii c in
      if (48 <=? n)%nat && (n <=? 57)%nat
      then digits_value rest (10 * acc + Z.of_nat (n - 48))%Z
      else None
  end.

Definition int_decimal (s : string) : option Z :=
  match s with
  | EmptyString => None
  | _ => digits_value s 0
  end.

(** The message names the value: the value's text occurs in it. *)
Definition names (message value : string) : Prop := contains value message = true.

(** Which tokens of a pattern are wide. *)
Definition widths (pat : list Q) : list bool :=
  map (fun t => Qle_bool wb (Qabs t)) pat.

(** Bars and gaps alternate, starting with a bar when [ink] is [true]. *)
Fixpoint alternating (ink : bool) (tokens : list Q) : Prop :=
  match tokens with
  | [] => True
  | t :: tokens =>
      (if ink then 0 < t else t < 0)%Q /\ alternating (negb ink) tokens
  end.

Fixpoint alternatingb (ink : bool) (tokens : list Q) : bool :=
  match tokens with
  | [] => true
  | t :: tokens =>
      (if ink then is_ink t else is_gap t) && alternatingb (negb ink) tokens
  end.

(** A Code 39 symbol: ten tokens that alternate from a bar to a final gap,
    five of them bars, of total width 2750 (three wide and seven narrow). *)
Definition code39_symbolb (pat : list Q) : bool :=
  (length pat =? 10)%nat && alternatingb true pat &&
  (length (List.filter is_ink pat) =? 5)%nat && Qeq_bool (span pat) 2750.

(** The box of a bar: its rectangle's extent. *)
Definition bar_box (bar : Q * Q) : box :=
  ((fst bar, - barheight / 2), (bar_right bar, barheight / 2))%Q.

(** What the barcode loop prints for a line it rejects: the prompt and the
    error line of the exception that [check_barcode] raises. *)
Definition barcode_rejection (line : string) : list string :=
  match check_barcode (upper line) with
  | inl e => [barcode_prompt; barcode_error_line e]
  | inr _ => []
  end.

Definition barcode_rejected (line : string) : Prop :=
  exists e, check_barcode (upper line) = inl e.

(** The scale answer, up to letter case. *)
Definition scale_answer (line : string) : option Q :=
  if bool_decide (lower line ∈ ["w"%string; "wafer"%string]) then Some 4.0%Q
  else if bool_decide (lower line ∈ ["r"%string; "reticle"%string]) then Some 1.0%Q
  else None.

(** A line the cell menu accepts: [int] reads a number between 1 and the
    number of cells. *)
Definition menu_choice (int : string -> option Z) (n : nat) (line : string)
  : option nat :=
  match int line with
  | Some choice =>
      if ((1 <=? choice)%Z && (choice <=? Z.of_nat n)%Z)
      then Some (Z.to_nat (choice - 1)) else None
  | None => None
  end.

(** What the cell menu prints for a line it rejects. *)
Definition menu_rejection (int : string -> option Z) (n : nat) (line : string)
  : list string :=
  [menu_prompt n;
   match int line with
   | Some _ => invalid_number_line
   | None => invalid_input_line
   end].

(** * Properties *)

(** ** The symbology table *)

Lemma binary64_constants :
  Binary64.nb = 200%float /\ Binary64.wb = 450%float /\
  Binary64.ns = (-200)%float /\ Binary64.ws = (-450)%float /\
  Binary64.barheight = 5000%float /\
  (Binary64.nb * 2.25)%float = Binary64.wb.
Proof. repeat split; reflexivity. Qed.

Lemma rational_constants :
  (nb == 200 /\ wb == 450 /\ ns == -200 /\ ws == -450 /\ barheight == 5000)%Q.
Proof. repeat split; reflexivity. Qed.

Lemma bar_tokenb_sound t : bar_tokenb t = true -> bar_token t.
Proof.
  unfold bar_tokenb, bar_token.
  rewrite andb_true_iff, orb_true_iff, negb_true_iff, !Qeq_bool_iff.
  intros [Hmag Hnz]; split; [exact Hmag|].
  intros Hz. apply Qeq_bool_iff in Hz. congruence.
Qed.

Lemma symbol_patternb_sound pat : symbol_patternb pat = true -> symbol_pattern pat.
Proof.
  unfold symbol_patternb, symbol_pattern.
  rewrite andb_true_iff, Nat.eqb_eq, forallb_forall.
  intros [Hlen Hall]; split; [exact Hlen|].
  apply List.Forall_forall. intros t Ht. apply bar_tokenb_sound, Hall, Ht.
Qed.

Lemma codedict_items_patterns :
  forallb (fun item => symbol_patternb (snd item)) codedict_items = true.
Proof. vm_compute. reflexivity. Qed.

Lemma codedict_items_NoDup : NoDup (codedict_items.*1).
Proof. apply (bool_decide_unpack _). vm_compute. exact I. Qed.

Lemma codedict_lookup c pat :
  codedict !! c = Some pat <-> (c, pat) ∈ codedict_items.
Proof.
  unfold codedict. symmetry. apply elem_of_list_to_map, codedict_items_NoDup.
Qed.

Lemma codedict_symbol_pattern c pat :
  codedict !! c = Some pat -> symbol_pattern pat.
Proof.
  intros Hin%codedict_lookup%list_elem_of_In.
  apply symbol_patternb_sound.
  exact (proj1 (forallb_forall _ _) codedict_items_patterns _ Hin).
Qed.

Lemma startstop_symbol_pattern : symbol_pattern startstop.
Proof. apply symbol_patternb_sound. vm_compute. reflexivity. Qed.

Lemma codedict_dom : dom codedict = list_to_set (chars alphabet).
Proof. vm_compute. reflexivity. Qed.

Lemma codedict_keys c : is_key c <-> c ∈ chars alphabet.
Proof.
  unfold is_key. rewrite <- elem_of_dom, codedict_dom. apply elem_of_list_to_set.
Qed.

Lemma codedict_size : size codedict = 43%nat.
Proof. reflexivity. Qed.

(** C7 (amended): every pattern of the table and the start/stop pattern
    consist of exactly 10 tokens, each of magnitude narrow (0.200 x scale) or
    wide (0.450 x scale) and none zero, with wide = narrow x 2.25; the table
    is total over the allowed alphabet, which has 43 entries: A-Z, 0-9, the
    6 specials - . $ / + % and the space. *)
Theorem symbology_table :
  (forall c pat, codedict !! c = Some pat -> symbol_pattern pat) /\
  symbol_pattern startstop /\
  (nb == 0.200 * scale /\ wb == 0.450 * scale /\ wb == nb * 2.25)%Q /\
  (forall c, c ∈ chars alphabet <-> is_key c) /\
  NoDup (chars alphabet) /\
  String.length alphabet = 43%nat /\
  size codedict = 43%nat.
Proof.
  split; [exact codedict_symbol_pattern|].
  split; [exact startstop_symbol_pattern|].
  split; [repeat split; reflexivity|].
  split; [intros c; symmetry; apply codedict_keys|].
  split; [apply (bool_decide_unpack _); vm_compute; exact I|].
  split; reflexivity.
Qed.

Lemma symbology_table_witness :
  codedict !! "$"%char = Some [nb; ws; nb; ws; nb; ws; nb; ns; nb; ns] /\
  symbol_pattern [nb; ws; nb; ws; nb; ws; nb; ns; nb; ns].
Proof.
  split; [reflexivity|].
  apply (proj1 symbology_table "$"%char). reflexivity.
Defined.

(** C7 as stated fails: the table has 43 keys, so it is total over no
    alphabet of 44 entries. *)
Lemma symbology_table_not_44 :
  ~ exists letters : gset ascii,
      size letters = 44%nat /\ forall c, c ∈ letters -> is_key c.
Proof.
  intros (letters & Hsize & Hkeys).
  assert (Hsub : letters ⊆ dom codedict).
  { intros c Hc. apply elem_of_dom, Hkeys, Hc. }
  apply subseteq_size in Hsub.
  rewrite size_dom, codedict_size in Hsub. lia.
Qed.

(** ** The encoder *)

Lemma str2code_loop_keys s barcode :
  Forall is_key (chars s) ->
  exists patterns,
    Forall2 (fun c pat => codedict !! c = Some pat) (chars s) patterns /\
    str2code_loop s barcode = inr (barcode ++ concat patterns).
Proof.
  revert barcode. induction s as [|c s IH]; intros barcode Hkeys;
    cbn [str2code_loop chars list_ascii_of_string] in *.
  - exists []. split; [constructor|]. cbn [concat]. by rewrite app_nil_r.
  - apply Forall_cons in Hkeys as [[pat Hpat] Hkeys].
    destruct (IH (barcode ++ pat) Hkeys) as (patterns & Hall & Hloop).
    exists (pat :: patterns). split; [by constructor|].
    rewrite Hpat, Hloop. cbn [concat]. by rewrite <- app_assoc.
Qed.

Lemma str2code_loop_not_key s barcode :
  ~ Forall is_key (chars s) ->
  exists before c after,
    s = before +:+ String c after /\ Forall is_key (chars before) /\
    codedict !! c = None /\ str2code_loop s barcode = inl (KeyError c).
Proof.
  revert barcode. induction s as [|c s IH]; intros barcode Hkeys;
    cbn [str2code_loop chars list_ascii_of_string] in *.
  - destruct Hkeys. constructor.
  - destruct (codedict !! c) as [pat|] eqn:Hc.
    + destruct (IH (barcode ++ pat)) as (before & c' & after & -> & Hb & Hc' & Hloop).
      { intros Hs. apply Hkeys. constructor; [by exists pat | exact Hs]. }
      exists (String c before), c', after.
      repeat split; try done. constructor; [by exists pat | exact Hb].
    + exists EmptyString, c, s. repeat split; done.
Qed.

Lemma concat_patterns_length (cs : list ascii) patterns :
  Forall2 (fun c pat => codedict !! c = Some pat) cs patterns ->
  length (concat patterns) = (10 * length cs)%nat.
Proof.
  induction 1 as [|c pat cs patterns Hpat _ IH]; [done|].
  cbn [concat length]. rewrite length_app, IH.
  destruct (codedict_symbol_pattern _ _ Hpat) as [-> _]. lia.
Qed.

Lemma chars_length s : length (chars s) = String.length s.
Proof. unfold chars. induction s; simpl; congruence. Qed.

(** ** Validation *)

Lemma in_codedict_is_key c : in_codedict c = true <-> is_key c.
Proof. unfold in_codedict, is_key. by rewrite bool_decide_eq_true. Qed.

Lemma in_codedict_is_key_false c : ~ is_key c -> in_codedict c = false.
Proof. rewrite <- in_codedict_is_key. by destruct (in_codedict c). Qed.

Lemma all_in_codedict_keys s :
  all_in_codedict s = true <-> Forall is_key (chars s).
Proof.
  unfold chars. induction s as [|c s IH]; cbn [all_in_codedict list_ascii_of_string].
  - split; [constructor | done].
  - rewrite andb_true_iff, Forall_cons, in_codedict_is_key, IH. done.
Qed.

Lemma append_empty s : EmptyString +:+ s = s.
Proof. reflexivity. Qed.

Lemma append_String c s t : String c s +:+ t = String c (s +:+ t).
Proof. reflexivity. Qed.

Lemma next_not_in_codedict_first before c after :
  Forall is_key (chars before) -> ~ is_key c ->
  next_not_in_codedict (before +:+ String c after) = Some c.
Proof.
  intros Hbefore Hc. unfold chars in Hbefore.
  induction before as [|b before IH];
    rewrite ?append_empty, ?append_String;
    cbn [next_not_in_codedict list_ascii_of_string] in *.
  - apply in_codedict_is_key_false in Hc. by rewrite Hc.
  - apply Forall_cons in Hbefore as [Hb%in_codedict_is_key Hbefore].
    rewrite Hb. cbn [negb]. by apply IH.
Qed.

Lemma not_all_keys_split s :
  ~ Forall is_key (chars s) ->
  exists before c after,
    s = before +:+ String c after /\ Forall is_key (chars before) /\ ~ is_key c.
Proof.
  intros Hs.
  destruct (str2code_loop_not_key s [] Hs) as (before & c & after & -> & Hb & Hc & _).
  exists before, c, after. repeat split; [exact Hb|].
  intros [pat Hpat]. congruence.
Qed.

Lemma length_in_range_dec (len : nat) :
  (1 <=? len)%nat && (len <=? 12)%nat = true <-> (1 <= len <= 12)%nat.
Proof. rewrite andb_true_iff, !Nat.leb_le. done. Qed.

Lemma check_barcode_length barcode_label :
  ~ (1 <= String.length barcode_label <= 12)%nat ->
  check_barcode barcode_label = inl (InvalidBarcodeLength barcode_label).
Proof.
  intros Hlen. unfold check_barcode.
  destruct ((1 <=? _)%nat && _) eqn:Hb; [|done].
  by apply length_in_range_dec in Hb.
Qed.

Lemma check_barcode_character before c after :
  (1 <= String.length (before +:+ String c after) <= 12)%nat ->
  Forall is_key (chars before) -> ~ is_key c ->
  check_barcode (before +:+ String c after) = inl (InvalidBarcodeCharacter c).
Proof.
  intros Hlen%length_in_range_dec Hbefore Hc. unfold check_barcode.
  rewrite Hlen. cbn [negb].
  destruct (all_in_codedict _) eqn:Hall.
  - apply all_in_codedict_keys in Hall. exfalso. apply Hc.
    clear -Hall. unfold chars in Hall.
    induction before as [|b before IH];
      rewrite ?append_empty, ?append_String in Hall;
      cbn [list_ascii_of_string] in Hall;
      apply Forall_cons in Hall as [Hhd Htl]; [exact Hhd | by apply IH].
  - cbn [negb]. by rewrite next_not_in_codedict_first.
Qed.

Lemma check_barcode_valid barcode_label :
  (1 <= String.length barcode_label <= 12)%nat ->
  Forall is_key (chars barcode_label) ->
  check_barcode barcode_label = inr barcode_label.
Proof.
  intros Hlen%length_in_range_dec Hkeys%all_in_codedict_keys.
  unfold check_barcode. by rewrite Hlen, Hkeys.
Qed.




(** The outcomes of [check_barcode], by cases on the label. *)
Lemma check_barcode_cases barcode_label :
  (~ (1 <= String.length barcode_label <= 12)%nat /\
   check_barcode barcode_label = inl (InvalidBarcodeLength barcode_label)) \/
  ((1 <= String.length barcode_label <= 12)%nat /\
   exists before c after,
     barcode_label = before +:+ String c after /\
     Forall is_key (chars before) /\ ~ is_key c /\
     check_barcode barcode_label = inl (InvalidBarcodeCharacter c)) \/
  ((1 <= String.length barcode_label <= 12)%nat /\
   Forall is_key (chars barcode_label) /\
   check_barcode barcode_label = inr barcode_label).
Proof.
  destruct (decide (1 <= String.length barcode_label <= 12)%nat) as [Hlen|Hlen].
  - right. destruct (decide (Forall is_key (chars barcode_label))) as [Hkeys|Hkeys].
    + right. auto using check_barcode_valid.
    + left. split; [exact Hlen|].
      destruct (not_all_keys_split _ Hkeys) as (before & c & after & -> & Hb & Hc).
      exists before, c, after. auto using check_barcode_character.
  - left. auto using check_barcode_length.
Qed.

Lemma barcode_loop_step line pending printed :
  barcode_loop (line :: pending) printed =
    match check_barcode (upper line) with
    | inr barcode_label =>
        (Done barcode_label pending,
         (printed ++ [barcode_prompt]) ++ [barcode_valid_line barcode_label])
    | inl e =>
        barcode_loop pending ((printed ++ [barcode_prompt]) ++ [barcode_error_line e])
    end.
Proof.
  cbn [barcode_loop].
  destruct (check_barcode_cases (upper line))
    as [[_ ->]|[(_ & b & c & a & _ & _ & _ & ->)|(_ & _ & ->)]]; reflexivity.
Qed.

(** C5: validation runs on the upper-cased input.  A length outside 1..12
    signals InvalidLength carrying the string; otherwise a character that is
    not a key of the table signals InvalidCharacter carrying the first such
    character in left-to-right order; a string within both bounds signals no
    error.  The loop prints the error and prompts again, or stops with the
    label. *)
Theorem check_barcode_spec (input : string) :
  let barcode_label := upper input in
  let len := String.length barcode_label in
  (~ (1 <= len <= 12)%nat ->
   check_barcode barcode_label = inl (InvalidBarcodeLength barcode_label)) /\
  ((1 <= len <= 12)%nat ->
   forall before c after,
     barcode_label = before +:+ String c after ->
     Forall is_key (chars before) -> ~ is_key c ->
     check_barcode barcode_label = inl (InvalidBarcodeCharacter c)) /\
  ((1 <= len <= 12)%nat -> Forall is_key (chars barcode_label) ->
   check_barcode barcode_label = inr barcode_label) /\
  (forall pending printed,
     barcode_loop (input :: pending) printed =
       match check_barcode barcode_label with
       | inr _ =>
           (Done barcode_label pending,
            (printed ++ [barcode_prompt]) ++ [barcode_valid_line barcode_label])
       | inl e =>
           barcode_loop pending ((printed ++ [barcode_prompt]) ++ [barcode_error_line e])
       end).
Proof.
  cbv zeta. split; [apply check_barcode_length|].
  split; [intros Hlen before c after Heq; rewrite Heq in *;
          by apply check_barcode_character|].
  split; [apply check_barcode_valid|].
  intros pending printed. rewrite barcode_loop_step.
  destruct (check_barcode_cases (upper input))
    as [[_ ->]|[(_ & b & c & a & _ & _ & _ & ->)|(_ & _ & ->)]]; reflexivity.
Qed.

Lemma check_barcode_spec_witness :
  check_barcode (upper EmptyString) = inl (InvalidBarcodeLength EmptyString) /\
  check_barcode (upper "abcdefghijklm") = inl (InvalidBarcodeLength "ABCDEFGHIJKLM") /\
  check_barcode (upper "ab#c!") = inl (InvalidBarcodeCharacter "#") /\
  check_barcode (upper "ab12") = inr "AB12"%string.
Proof.
  split; [apply (proj1 (check_barcode_spec EmptyString)); vm_compute; lia|].
  split; [apply (proj1 (check_barcode_spec "abcdefghijklm")); vm_compute; lia|].
  split.
  - apply (proj1 (proj2 (check_barcode_spec "ab#c!"))) with (before := "AB"%string) (after := "C!"%string).
    + vm_compute. lia.
    + reflexivity.
    + apply (bool_decide_unpack _). vm_compute. exact I.
    + apply (bool_decide_unpack _). vm_compute. exact I.
  - apply (proj1 (proj2 (proj2 (check_barcode_spec "ab12")))).
    + vm_compute. lia.
    + apply (bool_decide_unpack _). vm_compute. exact I.
Defined.

(** ** The encoder and the validation loop *)

Lemma str2code_keys s :
  Forall is_key (chars s) ->
  exists patterns,
    Forall2 (fun c pat => codedict !! c = Some pat) (chars s) patterns /\
    str2code s = inr (startstop ++ concat patterns ++ startstop).
Proof.
  intros Hkeys.
  destruct (str2code_loop_keys s ([] ++ startstop) Hkeys) as (patterns & Hall & Hloop).
  exists patterns. split; [exact Hall|].
  unfold str2code. rewrite Hloop. cbn [mbind result_bind mret result_ret app].
  by rewrite <- app_assoc.
Qed.

Lemma str2code_not_key s :
  ~ Forall is_key (chars s) ->
  exists before c after,
    s = before +:+ String c after /\ Forall is_key (chars before) /\
    ~ is_key c /\ str2code s = inl (KeyError c).
Proof.
  intros Hkeys.
  destruct (str2code_loop_not_key s ([] ++ startstop) Hkeys)
    as (before & c & after & Hs & Hb & Hc & Hloop).
  exists before, c, after. repeat split; try done.
  - intros [pat Hpat]. congruence.
  - unfold str2code. by rewrite Hloop.
Qed.

Lemma barcode_loop_done pending printed barcode_label rest out :
  barcode_loop pending printed = (Done barcode_label rest, out) ->
  (1 <= String.length barcode_label <= 12)%nat /\
  Forall is_key (chars barcode_label) /\
  exists before line,
    pending = before ++ line :: rest /\ barcode_label = upper line.
Proof.
  revert printed. induction pending as [|line pending IH]; intros printed.
  - cbn [barcode_loop]. intros [=].
  - rewrite barcode_loop_step.
    destruct (check_barcode_cases (upper line))
      as [[_ ->]|[(_ & b & c & a & _ & _ & _ & ->)|(Hlen & Hkeys & ->)]].
    + intros (Hlen & Hkeys & before & l & -> & Hup)%IH.
      split; [exact Hlen|]. split; [exact Hkeys|].
      by exists (line :: before), l.
    + intros (Hlen & Hkeys & before & l & -> & Hup)%IH.
      split; [exact Hlen|]. split; [exact Hkeys|].
      by exists (line :: before), l.
    + intros [= <- <- <-].
      split; [exact Hlen|]. split; [exact Hkeys|].
      by exists [], line.
Qed.

Lemma barcode_loop_caught pending printed e out :
  barcode_loop pending printed <> (Uncaught e, out).
Proof.
  revert printed. induction pending as [|line pending IH]; intros printed.
  - cbn [barcode_loop]. intros [=].
  - rewrite barcode_loop_step.
    destruct (check_barcode_cases (upper line))
      as [[_ ->]|[(_ & b & c & a & _ & _ & _ & ->)|(Hlen & Hkeys & ->)]];
      [apply IH | apply IH | intros [=]].
Qed.

(** C10: [str2code] validates nothing.  It succeeds on every string of table
    keys whatever its length, and on a string with a character outside the
    table it raises the key-lookup error for the first such character, not
    InvalidCharacter.  The length and character checks are those of the
    interactive loop, which hands over only labels that pass them, so that
    the later call of [str2code] raises nothing. *)
Theorem str2code_unvalidated (s : string) :
  (Forall is_key (chars s) ->
   exists patterns,
     Forall2 (fun c pat => codedict !! c = Some pat) (chars s) patterns /\
     str2code s = inr (startstop ++ concat patterns ++ startstop)) /\
  (~ Forall is_key (chars s) ->
   exists before c after,
     s = before +:+ String c after /\ Forall is_key (chars before) /\
     ~ is_key c /\ str2code s = inl (KeyError c)) /\
  (forall pending printed rest out,
     barcode_loop pending printed = (Done s rest, out) ->
     (1 <= String.length s <= 12)%nat /\ Forall is_key (chars s) /\
     check_barcode s = inr s) /\
  (forall pending printed barcode_target_layer e out,
     barcode_stage pending printed barcode_target_layer <> (Uncaught e, out)).
Proof.
  split; [apply str2code_keys|].
  split; [apply str2code_not_key|].
  split.
  - intros pending printed rest out (Hlen & Hkeys & _)%barcode_loop_done.
    split; [exact Hlen|]. split; [exact Hkeys|]. by apply check_barcode_valid.
  - intros pending printed barcode_target_layer e out. unfold barcode_stage.
    destruct (barcode_loop pending printed) as [[label rest|e'|] out'] eqn:Hloop.
    + apply barcode_loop_done in Hloop as (_ & Hkeys & _).
      destruct (str2code_keys _ Hkeys) as (patterns & _ & ->).
      destruct rest; intros [=].
    + by apply barcode_loop_caught in Hloop.
    + intros [=].
Qed.

Lemma str2code_unvalidated_witness :
  (exists patterns, str2code EmptyString = inr (startstop ++ concat patterns ++ startstop)) /\
  (exists patterns,
     str2code "ABCDEFGHIJKLM" = inr (startstop ++ concat patterns ++ startstop)) /\
  (exists before c after,
     "AB#C!"%string = before +:+ String c after /\ Forall is_key (chars before) /\
     ~ is_key c /\ str2code "AB#C!" = inl (KeyError c)).
Proof.
  split; [|split].
  - destruct (proj1 (str2code_unvalidated EmptyString)) as (patterns & _ & H);
      [constructor | by exists patterns].
  - destruct (proj1 (str2code_unvalidated "ABCDEFGHIJKLM")) as (patterns & _ & H);
      [apply (bool_decide_unpack _); vm_compute; exact I | by exists patterns].
  - apply (proj1 (proj2 (str2code_unvalidated "AB#C!"))).
    apply (bool_decide_unpack _). vm_compute. exact I.
Defined.

(** ** The renderer *)

Lemma Qabs_ink t : (0 < t)%Q -> Qabs t = t.
Proof.
  destruct t as [[|n|n] d]; intros H; [reflexivity | reflexivity | discriminate H].
Qed.

Lemma barcad_fold layer_num datatype_num tokens code_cell xcurr :
  let st := fold_left (barcad_step layer_num datatype_num) tokens (code_cell, xcurr) in
  name (fst st) = name code_cell /\
  polygons (fst st) =
    polygons code_cell ++ map (bar_rectangle layer_num datatype_num) (bars xcurr tokens) /\
  snd st = fold_left (fun x t => x + Qabs t)%Q tokens xcurr.
Proof.
  cbv zeta. revert code_cell xcurr.
  induction tokens as [|t tokens IH]; intros code_cell xcurr; cbn [fold_left bars].
  - cbn. by rewrite app_nil_r.
  - unfold barcad_step at 2 4 6.
    destruct (IH (if Qlt_le_dec 0 t
                  then add code_cell
                         [rectangle (xcurr, (- barheight / 2)%Q)
                            ((xcurr + t)%Q, (barheight / 2)%Q) layer_num datatype_num]
                  else code_cell) (xcurr + Qabs t)%Q) as (Hname & Hpoly & Hx).
    split; [|split]; [rewrite Hname | rewrite Hpoly | exact Hx].
    + by destruct (Qlt_le_dec 0 t).
    + destruct (Qlt_le_dec 0 t) as [Hink|Hgap]; [|done].
      cbn [add polygons map app]. rewrite <- app_assoc.
      unfold bar_rectangle at 2. cbn [fst snd app]. by rewrite (Qabs_ink t Hink).
Qed.

Lemma span_cons t tokens : span (t :: tokens) = (Qabs t + span tokens)%Q.
Proof. reflexivity. Qed.

Lemma cursor_span tokens x :
  (fold_left (fun x t => x + Qabs t) tokens x == x + span tokens)%Q.
Proof.
  revert x. induction tokens as [|t tokens IH]; intros x; cbn [fold_left].
  - change (span []) with 0%Q. lra.
  - rewrite IH, span_cons. lra.
Qed.

Lemma span_nonneg tokens : (0 <= span tokens)%Q.
Proof.
  induction tokens as [|t tokens IH]; [done|].
  rewrite span_cons. pose proof (Qabs_nonneg t). lra.
Qed.

Lemma span_app l1 l2 : (span (l1 ++ l2) == span l1 + span l2)%Q.
Proof.
  induction l1 as [|t l1 IH]; cbn [app].
  - change (span []) with 0%Q. lra.
  - rewrite !span_cons, IH. lra.
Qed.

Lemma bars_app x l1 l2 :
  bars x (l1 ++ l2) = bars x l1 ++ bars (fold_left (fun x t => x + Qabs t)%Q l1 x) l2.
Proof.
  revert x. induction l1 as [|t l1 IH]; intros x; cbn [bars app fold_left]; [done|].
  by rewrite IH, app_assoc.
Qed.

Lemma bars_gaps x gaps : Forall (fun g => ~ 0 < g)%Q gaps -> bars x gaps = [].
Proof.
  intros Hgaps. revert x.
  induction Hgaps as [|g gaps Hg _ IH]; intros x; cbn [bars]; [done|].
  rewrite IH. destruct (Qlt_le_dec 0 g); done.
Qed.

Lemma bars_length x tokens : length (bars x tokens) = length (List.filter is_ink tokens).
Proof.
  revert x. induction tokens as [|t tokens IH]; intros x; cbn [bars]; [done|].
  rewrite length_app, IH. cbn [List.filter]. unfold is_ink at 2.
  by destruct (Qlt_le_dec 0 t).
Qed.

Lemma bars_left x tokens :
  Forall (fun bar => x <= fst bar /\ 0 < snd bar)%Q (bars x tokens).
Proof.
  revert x. induction tokens as [|t tokens IH]; intros x; cbn [bars]; [constructor|].
  apply Forall_app. split.
  - destruct (Qlt_le_dec 0 t) as [Hink|]; [|constructor].
    constructor; [|constructor]. cbn [fst snd]. rewrite (Qabs_ink t Hink). lra.
  - eapply Forall_impl; [apply IH|]. intros bar [Hleft Hw].
    split; [|exact Hw]. pose proof (Qabs_nonneg t). cbn beta in *. lra.
Qed.

Lemma bars_sorted x tokens :
  StronglySorted (fun bar1 bar2 => bar_right bar1 <= fst bar2)%Q (bars x tokens).
Proof.
  revert x. induction tokens as [|t tokens IH]; intros x; cbn [bars]; [constructor|].
  destruct (Qlt_le_dec 0 t) as [Hink|]; cbn [app]; [|apply IH].
  constructor; [apply IH|].
  eapply Forall_impl; [apply bars_left|]. intros bar [Hleft _].
  unfold bar_right. cbn [fst snd] in *. lra.
Qed.

Lemma ink_or_gap tokens :
  Forall (fun t => ~ t == 0)%Q tokens ->
  (length (List.filter is_ink tokens) +
   length (List.filter is_gap tokens) = length tokens)%nat.
Proof.
  induction 1 as [|t tokens Ht _ IH]; [done|].
  cbn [List.filter]. unfold is_ink at 1, is_gap at 1.
  destruct (Qlt_le_dec 0 t), (Qlt_le_dec 0 (- t)); cbn [length]; try lia; exfalso; lra.
Qed.

(** ** Text centring *)

Lemma box_add_shift dx dy b b' v :
  box_eq b' (box_shift dx dy b) ->
  box_eq (box_add b' (translate_point dx dy v)) (box_shift dx dy (box_add b v)).
Proof.
  destruct b as [[min_x min_y] [max_x max_y]], b' as [[min_x' min_y'] [max_x' max_y']].
  destruct v as [vx vy]. unfold box_eq, box_shift, box_add, translate_point.
  cbn [fst snd]. intros (H1 & H2 & H3 & H4).
  rewrite H1, H2, H3, H4.
  rewrite !Q.plus_min_distr_r, !Q.plus_max_distr_r. repeat split; reflexivity.
Qed.

Lemma box_eq_refl b : box_eq b b.
Proof. repeat split; reflexivity. Qed.

Lemma bounding_box_translate dx dy poly :
  box_eq (bounding_box (translate dx dy poly)) (box_shift dx dy (bounding_box poly)).
Proof.
  unfold bounding_box, translate. cbn [vertex0 vertices].
  generalize (box_eq_refl (box_shift dx dy (vertex0 poly, vertex0 poly))).
  unfold box_shift at 1. cbn [fst snd].
  generalize (translate_point dx dy (vertex0 poly), translate_point dx dy (vertex0 poly)).
  generalize (vertex0 poly, vertex0 poly).
  induction (vertices poly) as [|v vs IH]; intros b b' Hb; cbn [map fold_left].
  - exact Hb.
  - apply IH, box_add_shift, Hb.
Qed.

Lemma box_union_shift dx dy b1 b1' b2 b2' :
  box_eq b1' (box_shift dx dy b1) -> box_eq b2' (box_shift dx dy b2) ->
  box_eq (box_union b1' b2') (box_shift dx dy (box_union b1 b2)).
Proof.
  destruct b1 as [[? ?] [? ?]], b1' as [[? ?] [? ?]].
  destruct b2 as [[? ?] [? ?]], b2' as [[? ?] [? ?]].
  unfold box_eq, box_shift, box_union, translate_point. cbn [fst snd].
  intros (H1 & H2 & H3 & H4) (H5 & H6 & H7 & H8).
  rewrite H1, H2, H3, H4, H5, H6, H7, H8.
  rewrite !Q.plus_min_distr_r, !Q.plus_max_distr_r. repeat split; reflexivity.
Qed.

Lemma fold_box_union_shift dx dy rest b b' :
  box_eq b' (box_shift dx dy b) ->
  box_eq
    (fold_left (fun b poly => box_union b (bounding_box poly))
       (map (translate dx dy) rest) b')
    (box_shift dx dy
       (fold_left (fun b poly => box_union b (bounding_box poly)) rest b)).
Proof.
  revert b b'. induction rest as [|poly rest IH]; intros b b' Hb; cbn [map fold_left].
  - exact Hb.
  - apply IH, box_union_shift; [exact Hb | apply bounding_box_translate].
Qed.

Lemma box_add_union b p : box_add b p = box_union b (p, p).
Proof. by destruct b as [[? ?] [? ?]], p. Qed.

Lemma extent_singleton p : extent [p] (p, p).
Proof.
  unfold extent. cbn [fst snd].
  split; [constructor; [|constructor]; repeat split; apply Qle_refl|].
  repeat split; constructor; reflexivity.
Qed.

Lemma extent_union l1 l2 b1 b2 :
  extent l1 b1 -> extent l2 b2 -> extent (l1 ++ l2) (box_union b1 b2).
Proof.
  destruct b1 as [[m1 n1] [M1 N1]], b2 as [[m2 n2] [M2 N2]].
  unfold extent, box_union. cbn [fst snd].
  intros (F1 & A1 & B1 & C1 & D1) (F2 & A2 & B2 & C2 & D2).
  pose proof (Q.le_min_l m1 m2). pose proof (Q.le_min_r m1 m2).
  pose proof (Q.le_min_l n1 n2). pose proof (Q.le_min_r n1 n2).
  pose proof (Q.le_max_l M1 M2). pose proof (Q.le_max_r M1 M2).
  pose proof (Q.le_max_l N1 N2). pose proof (Q.le_max_r N1 N2).
  split; [|split; [|split; [|split]]].
  - apply Forall_app. split.
    + eapply Forall_impl; [exact F1|]. intros p (? & ? & ? & ?).
      cbn beta in *. repeat split; lra.
    + eapply Forall_impl; [exact F2|]. intros p (? & ? & ? & ?).
      cbn beta in *. repeat split; lra.
  - apply Exists_app. destruct (Q.min_dec m1 m2) as [E|E]; [left | right].
    + eapply Exists_impl; [exact A1|]. intros p Hp. cbn beta in *. by rewrite E.
    + eapply Exists_impl; [exact A2|]. intros p Hp. cbn beta in *. by rewrite E.
  - apply Exists_app. destruct (Q.max_dec M1 M2) as [E|E]; [left | right].
    + eapply Exists_impl; [exact B1|]. intros p Hp. cbn beta in *. by rewrite E.
    + eapply Exists_impl; [exact B2|]. intros p Hp. cbn beta in *. by rewrite E.
  - apply Exists_app. destruct (Q.min_dec n1 n2) as [E|E]; [left | right].
    + eapply Exists_impl; [exact C1|]. intros p Hp. cbn beta in *. by rewrite E.
    + eapply Exists_impl; [exact C2|]. intros p Hp. cbn beta in *. by rewrite E.
  - apply Exists_app. destruct (Q.max_dec N1 N2) as [E|E]; [left | right].
    + eapply Exists_impl; [exact D1|]. intros p Hp. cbn beta in *. by rewrite E.
    + eapply Exists_impl; [exact D2|]. intros p Hp. cbn beta in *. by rewrite E.
Qed.

Lemma fold_box_add_extent vs pts b :
  extent pts b -> extent (pts ++ vs) (fold_left box_add vs b).
Proof.
  revert pts b. induction vs as [|v vs IH]; intros pts b Hb; cbn [fold_left].
  - by rewrite app_nil_r.
  - rewrite (cons_middle v pts vs), app_assoc. apply IH.
    rewrite box_add_union. apply extent_union; [exact Hb | apply extent_singleton].
Qed.

(** [bounding_box] is the extent of the vertices of the polygon. *)
Lemma bounding_box_extent poly : extent (poly_points poly) (bounding_box poly).
Proof.
  unfold bounding_box, poly_points.
  apply (fold_box_add_extent (vertices poly) [vertex0 poly]), extent_singleton.
Qed.

Lemma fold_box_union_extent rest pts b :
  extent pts b ->
  extent (pts ++ all_points rest)
    (fold_left (fun b poly => box_union b (bounding_box poly)) rest b).
Proof.
  revert pts b. induction rest as [|poly rest IH]; intros pts b Hb;
    unfold all_points; cbn [fmap list_fmap concat fold_left].
  - by rewrite app_nil_r.
  - rewrite app_assoc. apply IH, extent_union; [exact Hb | apply bounding_box_extent].
Qed.

Lemma all_points_translate dx dy text :
  all_points (map (translate dx dy) text) = map (translate_point dx dy) (all_points text).
Proof.
  unfold all_points. induction text as [|poly text IH]; [done|].
  cbn [map fmap list_fmap concat]. rewrite map_app.
  change (list_fmap _ _ poly_points (map (translate dx dy) text))
    with (poly_points <$> map (translate dx dy) text).
  by rewrite IH.
Qed.

Lemma extent_translate dx dy pts b :
  extent pts b -> extent (map (translate_point dx dy) pts) (box_shift dx dy b).
Proof.
  destruct b as [[m n] [M N]]. unfold extent, box_shift, translate_point. cbn [fst snd].
  intros (F & A & B & C & D).
  split; [|split; [|split; [|split]]].
  - apply Forall_forall. intros q (p & -> & Hp)%list_elem_of_fmap.
    pose proof (proj1 (Forall_forall _ _) F p Hp) as (? & ? & ? & ?).
    cbn [fst snd]. repeat split; lra.
  - apply Exists_exists in A as (p & Hp & E). apply Exists_exists.
    exists (fst p + dx, snd p + dy)%Q. split; [apply list_elem_of_fmap; by exists p|].
    cbn [fst]. by rewrite E.
  - apply Exists_exists in B as (p & Hp & E). apply Exists_exists.
    exists (fst p + dx, snd p + dy)%Q. split; [apply list_elem_of_fmap; by exists p|].
    cbn [fst]. by rewrite E.
  - apply Exists_exists in C as (p & Hp & E). apply Exists_exists.
    exists (fst p + dx, snd p + dy)%Q. split; [apply list_elem_of_fmap; by exists p|].
    cbn [snd]. by rewrite E.
  - apply Exists_exists in D as (p & Hp & E). apply Exists_exists.
    exists (fst p + dx, snd p + dy)%Q. split; [apply list_elem_of_fmap; by exists p|].
    cbn [snd]. by rewrite E.
Qed.

Lemma translate_moved_by dx dy (text : list Polygon) :
  Forall2 (moved_by dx dy) text (map (translate dx dy) text).
Proof.
  induction text as [|poly text IH]; constructor; [|exact IH].
  unfold moved_by, translate, poly_points. cbn [layer datatype vertex0 vertices].
  split; [done|]. split; [done|].
  change (translate_point dx dy (vertex0 poly) :: map (translate_point dx dy) (vertices poly))
    with (map (translate_point dx dy) (vertex0 poly :: vertices poly)).
  apply Forall2_fmap_r, Forall_Forall2_diag, Forall_forall.
  intros p _. unfold translate_point. cbn [fst snd]. split; reflexivity.
Qed.

Lemma half_sum_centred (a c : Q) : (a + - ((a + c) / 2) + (c + - ((a + c) / 2)) == 0)%Q.
Proof. field. Qed.

Lemma recenter_recentred text : recentred text (recenter text).
Proof.
  split; [by intros ->|].
  destruct text as [|first rest]; [done|]. intros _.
  pose proof (fold_box_union_extent rest _ _ (bounding_box_extent first)) as Hext.
  change (poly_points first ++ all_points rest) with (all_points (first :: rest)) in Hext.
  unfold recenter.
  destruct (fold_left _ rest (bounding_box first)) as [[min_x min_y] [max_x max_y]].
  cbn [box_center].
  exists min_x, min_y, max_x, max_y.
  split; [exact Hext|]. split; [apply translate_moved_by|].
  eexists. split.
  - rewrite all_points_translate. apply extent_translate, Hext.
  - unfold box_shift, translate_point. cbn [fst snd].
    split; apply half_sum_centred.
Qed.

(** C6: when the glyph rendering of the text is not empty, the label and the
    date renderers displace every vertex of every polygon by minus the centre
    of the extent of all vertices (the least and the greatest coordinate on
    each axis over all polygons), and the extent of the result has its centre
    at the origin; when the rendering is empty the step is skipped and the
    empty result is kept.  Coordinates are exact rationals. *)
Theorem text_recentred
    (gdstk_text : string -> Q -> point -> Z -> Z -> list Polygon)
    (today str2wrt : string) (layer_num datatype_num : Z) :
  recentred (gdstk_text str2wrt (4 * scale)%Q (0, 0)%Q layer_num datatype_num)
    (polygons (humancad gdstk_text str2wrt layer_num datatype_num)) /\
  recentred (gdstk_text today (4 * scale)%Q (0, 0)%Q layer_num datatype_num)
    (polygons (datecad gdstk_text today layer_num datatype_num)).
Proof.
  unfold humancad, datecad, add, new_cell. cbn [polygons app].
  split; apply recenter_recentred.
Qed.

Lemma text_recentred_witness :
  (exists min_x min_y max_x max_y,
     extent (all_points (square_glyphs "AB12" (4 * scale)%Q (0, 0)%Q 4 0))
       ((min_x, min_y), (max_x, max_y)) /\
     Forall2 (moved_by (- ((min_x + max_x) / 2)) (- ((min_y + max_y) / 2)))%Q
       (square_glyphs "AB12" (4 * scale)%Q (0, 0)%Q 4 0)
       (polygons (humancad square_glyphs "AB12" 4 0)) /\
     exists b',
       extent (all_points (polygons (humancad square_glyphs "AB12" 4 0))) b' /\
       (fst (fst b') + fst (snd b') == 0 /\ snd (fst b') + snd (snd b') == 0)%Q) /\
  polygons (datecad square_glyphs EmptyString 4 0) = [].
Proof.
  split.
  - apply (proj2 (proj1 (text_recentred square_glyphs EmptyString "AB12" 4 0))).
    discriminate.
  - apply (proj1 (proj2 (text_recentred square_glyphs EmptyString "AB12" 4 0))).
    reflexivity.
Defined.

(** ** Layer conflict resolution *)

Lemma foldl_max_spec (layers : list Z) (layer : Z) :
  let m := foldl Z.max layer layers in
  m ∈ layer :: layers /\ forall l, l ∈ layer :: layers -> (l <= m)%Z.
Proof.
  cbv zeta. revert layer.
  induction layers as [|l' layers IH]; intros layer; cbn [foldl].
  - split; [constructor|]. intros l ->%list_elem_of_singleton. lia.
  - destruct (IH (Z.max layer l')) as [Hin Hub]. split.
    + apply elem_of_cons in Hin as [->|Hin].
      * destruct (Z.max_spec layer l') as [[_ ->]|[_ ->]];
          [right; left | left].
      * by do 2 right.
    + intros l [->|[->|Hl]%elem_of_cons]%elem_of_cons.
      * etrans; [|apply Hub; left]. lia.
      * etrans; [|apply Hub; left]. lia.
      * apply Hub. by right.
Qed.

(** [max_or_0] is the largest layer component of the user pairs. *)
Lemma max_user_layer_spec (user : gset ld) :
  let m := max_or_0 (elements (set_map fst user : gset Z)) in
  (user = ∅ -> m = 0%Z) /\
  (user <> ∅ -> exists dt, (m, dt) ∈ user) /\
  (forall p, p ∈ user -> (fst p <= m)%Z).
Proof.
  cbv zeta. unfold max_or_0.
  destruct (elements (set_map fst user : gset Z)) as [|layer layers] eqn:Hel.
  - apply elements_empty_inv in Hel. apply leibniz_equiv in Hel.
    assert (Huser : user = ∅).
    { apply leibniz_equiv. intros p. split; [|by intros ?%not_elem_of_empty].
      intros Hp. exfalso. apply (not_elem_of_empty (C := gset Z) (fst p)).
      rewrite <- Hel. apply elem_of_map. by exists p. }
    split; [done|]. split; [done|]. subst user. by intros p ?%not_elem_of_empty.
  - destruct (foldl_max_spec layers layer) as [Hin Hub].
    rewrite <- Hel in Hin, Hub.
    split; [|split].
    + intros ->. rewrite set_map_empty, elements_empty in Hel. done.
    + intros _. apply elem_of_elements, elem_of_map in Hin as ([l dt] & Hl & Hp).
      exists dt. cbn in Hl. by rewrite Hl.
    + intros p Hp. apply Hub, elem_of_elements, elem_of_map. by exists p.
Qed.

Lemma remap_dict_lookup (new_layer : Z) (pairs : gset ld) (old new : ld) :
  (set_to_map (fun old_ld => (old_ld, (new_layer, snd old_ld))) pairs
     : gmap ld ld) !! old = Some new
  <-> old ∈ pairs /\ new = (new_layer, snd old).
Proof.
  rewrite lookup_set_to_map; [|by intros ? ? _ _ [=]].
  split.
  - by intros (y & Hy & [= -> <-]).
  - intros [Hold ->]. by exists old.
Qed.

Lemma resolve_no_conflict (user template : gset ld) :
  user ∩ (template ∪ {[ barcode_layer_datatype ]}) = ∅ ->
  resolve user template =
    {| remap_dict := None;
       template_pairs_after := template;
       barcode_target_layer := 4 |}.
Proof. intros Hc. unfold resolve. by rewrite decide_False by (by intros []). Qed.

Lemma resolve_conflict (user template : gset ld) :
  user ∩ (template ∪ {[ barcode_layer_datatype ]}) <> ∅ ->
  let new_layer := (max_or_0 (elements (set_map fst user : gset Z)) + 1)%Z in
  exists table : gmap ld ld,
    resolve user template =
      {| remap_dict := Some table;
         template_pairs_after := set_map (fun p => (new_layer, snd p)) template;
         barcode_target_layer := new_layer |} /\
    forall old new,
      table !! old = Some new <->
      old ∈ template ∪ {[ barcode_layer_datatype ]} /\ new = (new_layer, snd old).
Proof.
  intros Hc. cbv zeta. unfold resolve. rewrite decide_True by exact Hc.
  eexists. split; [|apply remap_dict_lookup].
  f_equal. unfold remap. apply leibniz_equiv. intros p.
  rewrite !elem_of_map.
  split; intros (old & -> & Hold); exists old; (split; [|done]);
    (erewrite (proj2 (remap_dict_lookup _ (template ∪ {[ barcode_layer_datatype ]}) old _));
     [done | split; [apply elem_of_union; by left | done]]).
Qed.

(** C3: with conflicts = userPairs ∩ (templatePairs ∪ {(4, 0)}): when there is
    no conflict nothing is remapped and the barcode target layer is 4; when
    there is one, newLayer is the largest layer component of the user pairs
    plus 1, the remap table sends every pair of templatePairs ∪ {(4, 0)}, and
    no other, to (newLayer, its datatype), and newLayer is the barcode target
    layer.  So {(1,0)} against {(2,0)} gives no conflict and layer 4, and
    {(4,0)} against {(2,0)} gives newLayer 5 with (2,0) -> (5,0) and
    (4,0) -> (5,0). *)
Theorem resolve_spec :
  (forall userPairs templatePairs : gset ld,
     let conflicts := userPairs ∩ (templatePairs ∪ {[ barcode_layer_datatype ]}) in
     let r := resolve userPairs templatePairs in
     (conflicts = ∅ ->
      remap_dict r = None /\ template_pairs_after r = templatePairs /\
      barcode_target_layer r = fst barcode_layer_datatype /\
      barcode_target_layer r = 4%Z) /\
     (conflicts <> ∅ ->
      exists (max_layer : Z) (table : gmap ld ld),
        (exists dt, (max_layer, dt) ∈ userPairs) /\
        (forall p, p ∈ userPairs -> (fst p <= max_layer)%Z) /\
        remap_dict r = Some table /\
        (forall old new,
           table !! old = Some new <->
           old ∈ templatePairs ∪ {[ barcode_layer_datatype ]} /\
           new = ((max_layer + 1)%Z, snd old)) /\
        barcode_target_layer r = (max_layer + 1)%Z)) /\
  (let r := resolve {[ (1, 0)%Z ]} {[ (2, 0)%Z ]} in
   remap_dict r = None /\ barcode_target_layer r = 4%Z) /\
  (let r := resolve {[ (4, 0)%Z ]} {[ (2, 0)%Z ]} in
   remap_dict r = Some (<[ (2, 0)%Z := (5, 0)%Z ]> {[ (4, 0)%Z := (5, 0)%Z ]}) /\
   barcode_target_layer r = 5%Z).
Proof.
  split; [|split; [split; reflexivity | split; vm_compute; reflexivity]].
  intros userPairs templatePairs. cbv zeta. split.
  - intros Hc. by rewrite (resolve_no_conflict _ _ Hc).
  - intros Hc.
    destruct (resolve_conflict _ _ Hc) as (table & -> & Htable).
    destruct (max_user_layer_spec userPairs) as (_ & Hmax & Hub).
    exists (max_or_0 (elements (set_map fst userPairs : gset Z))), table.
    split; [apply Hmax; intros ->; apply Hc; by rewrite intersection_empty_l_L|].
    split; [exact Hub|]. split; [reflexivity|]. split; [exact Htable | reflexivity].
Qed.

Lemma resolve_spec_witness :
  (let r := resolve {[ (1, 0)%Z; (3, 7)%Z ]} {[ (2, 0)%Z ]} in
   remap_dict r = None /\ template_pairs_after r = {[ (2, 0)%Z ]} /\
   barcode_target_layer r = fst barcode_layer_datatype /\
   barcode_target_layer r = 4%Z) /\
  (let r := resolve {[ (1, 0)%Z; (9, 2)%Z; (2, 5)%Z ]} {[ (2, 5)%Z; (6, 1)%Z ]} in
   exists (max_layer : Z) (table : gmap ld ld),
     (exists dt, (max_layer, dt) ∈ ({[ (1, 0)%Z; (9, 2)%Z; (2, 5)%Z ]} : gset ld)) /\
     (forall p, p ∈ ({[ (1, 0)%Z; (9, 2)%Z; (2, 5)%Z ]} : gset ld) ->
                (fst p <= max_layer)%Z) /\
     remap_dict r = Some table /\
     (forall old new,
        table !! old = Some new <->
        old ∈ ({[ (2, 5)%Z; (6, 1)%Z ]} : gset ld) ∪ {[ barcode_layer_datatype ]} /\
        new = ((max_layer + 1)%Z, snd old)) /\
     barcode_target_layer r = (max_layer + 1)%Z).
Proof.
  split.
  - apply (proj1 (proj1 resolve_spec {[ (1, 0)%Z; (3, 7)%Z ]} {[ (2, 0)%Z ]})).
    vm_compute. reflexivity.
  - apply (proj2 (proj1 resolve_spec {[ (1, 0)%Z; (9, 2)%Z; (2, 5)%Z ]}
                    {[ (2, 5)%Z; (6, 1)%Z ]})).
    intros Hc. apply (f_equal elements) in Hc. vm_compute in Hc. discriminate Hc.
Defined.

(** C4: in the conflict case every pair in the range of the remap table, and
    the pair (newLayer, 0) on which the barcode, label and date are drawn, has
    a layer component strictly above that of every user pair; hence neither
    a remapped template pair nor the annotation pair is a user pair, and the
    two designs share no layer plane after the remap. *)
Theorem resolve_no_collision (userPairs templatePairs : gset ld) :
  userPairs ∩ (templatePairs ∪ {[ barcode_layer_datatype ]}) <> ∅ ->
  let r := resolve userPairs templatePairs in
  (exists table, remap_dict r = Some table /\
     forall old new u,
       table !! old = Some new -> u ∈ userPairs -> (fst u < fst new)%Z) /\
  (forall u, u ∈ userPairs -> (fst u < fst (annotation_pair r))%Z) /\
  (forall p, p ∈ template_pairs_after r ->
     forall u, u ∈ userPairs -> (fst u < fst p)%Z) /\
  (template_pairs_after r ∪ {[ annotation_pair r ]}) ∩ userPairs = ∅.
Proof.
  intros Hc. cbv zeta.
  destruct (resolve_conflict _ _ Hc) as (table & -> & Htable).
  destruct (max_user_layer_spec userPairs) as (_ & _ & Hub).
  unfold annotation_pair. cbn [remap_dict template_pairs_after barcode_target_layer fst].
  assert (Hafter : forall p,
    p ∈ (set_map (fun p => ((max_or_0 (elements (set_map fst userPairs : gset Z)) + 1)%Z,
                           snd p)) templatePairs : gset ld) ->
    forall u, u ∈ userPairs -> (fst u < fst p)%Z).
  { intros p (old & -> & _)%elem_of_map u Hu%Hub. cbn [fst]. lia. }
  split; [|split; [|split]].
  - exists table. split; [reflexivity|].
    intros old new u [_ ->]%Htable Hu%Hub. cbn [fst]. lia.
  - intros u Hu%Hub. lia.
  - exact Hafter.
  - apply leibniz_equiv. intros u. split; [|by intros ?%not_elem_of_empty].
    intros [[Hp| ->%elem_of_singleton]%elem_of_union Hu]%elem_of_intersection; exfalso.
    + pose proof (Hafter _ Hp _ Hu). lia.
    + apply Hub in Hu. cbn [fst] in Hu. lia.
Qed.

Lemma resolve_no_collision_witness :
  let r := resolve {[ (4, 0)%Z; (7, 1)%Z ]} {[ (2, 0)%Z; (7, 1)%Z ]} in
  (template_pairs_after r ∪ {[ annotation_pair r ]})
    ∩ {[ (4, 0)%Z; (7, 1)%Z ]} = ∅.
Proof.
  refine (proj2 (proj2 (proj2
    (resolve_no_collision {[ (4, 0)%Z; (7, 1)%Z ]} {[ (2, 0)%Z; (7, 1)%Z ]} _)))).
  intros Hc. apply (f_equal elements) in Hc. vm_compute in Hc. discriminate Hc.
Defined.

(** ** Output file name *)

Lemma length_append s t :
  String.length (s +:+ t) = (String.length s + String.length t)%nat.
Proof.
  induction s as [|c s IH]; rewrite ?append_empty, ?append_String; [done|].
  cbn [String.length]. by rewrite IH.
Qed.

Lemma substring_whole t : substring 0 (String.length t) t = t.
Proof. induction t as [|c t IH]; [done|]. cbn [String.length substring]. by rewrite IH. Qed.

Lemma substring_append s t :
  substring (String.length s) (String.length t) (s +:+ t) = t.
Proof.
  induction s as [|c s IH]; rewrite ?append_empty, ?append_String.
  - apply substring_whole.
  - cbn [String.length substring]. exact IH.
Qed.

Lemma endswith_append s suffix : endswith (s +:+ suffix) suffix = true.
Proof.
  unfold endswith. rewrite length_append.
  replace (String.length s + String.length suffix - String.length suffix)%nat
    with (String.length s) by lia.
  rewrite substring_append, String.eqb_refl, andb_true_r.
  apply Nat.leb_le. lia.
Qed.

Lemma lower_append s t : lower (s +:+ t) = lower s +:+ lower t.
Proof.
  unfold lower. induction s as [|c s IH]; cbn [map_chars];
    rewrite ?append_empty, ?append_String; [done|].
  cbn [map_chars]. by rewrite IH.
Qed.

(** C8 as stated fails: a name that carries the suffix in upper case is kept,
    and the name given to the final write does not end with [.gds]. *)
Lemma output_name_upper_case_suffix :
  output_name "OUT.GDS" = "OUT.GDS"%string /\
  endswith (output_name "OUT.GDS") ".gds" = false.
Proof. split; reflexivity. Qed.

(** C8 (amended): the suffix [.gds] is appended when the name does not
    already end with [.gds] in some letter case.  The name used for the final
    write then ends with [.gds] up to letter case; a name that carries the
    suffix in any case is used unchanged, and a name to which the suffix was
    appended ends with [.gds] itself. *)
Theorem output_name_suffix :
  (forall output_gds_file : string,
     endswith (lower (output_name output_gds_file)) ".gds" = true /\
     (endswith (lower output_gds_file) ".gds" = true ->
      output_name output_gds_file = output_gds_file) /\
     (endswith (lower output_gds_file) ".gds" = false ->
      output_name output_gds_file = output_gds_file +:+ ".gds" /\
      endswith (output_name output_gds_file) ".gds" = true)) /\
  (forall pending printed barcode_target_layer written barcode_cell rest out,
     barcode_stage pending printed barcode_target_layer
       = (Done (written, barcode_cell) rest, out) ->
     exists before line output_gds_file,
       pending = before ++ line :: output_gds_file :: rest /\
       written = output_name output_gds_file).
Proof.
  split.
  - intros output_gds_file. unfold output_name.
    destruct (endswith (lower output_gds_file) ".gds") eqn:Hends; cbn [negb].
    + split; [exact Hends|]. by split.
    + split; [rewrite lower_append; apply endswith_append|].
      split; [done|]. intros _. split; [done | apply endswith_append].
  - intros pending printed barcode_target_layer written barcode_cell rest out.
    unfold barcode_stage.
    destruct (barcode_loop pending printed) as [[label rest'|e'|] out'] eqn:Hloop;
      [|intros [=]..].
    apply barcode_loop_done in Hloop as (_ & _ & before & line & -> & _).
    destruct rest' as [|output_gds_file rest']; [intros [=]|].
    destruct (str2code label); intros [= <- <- <- <-].
    by exists before, line, output_gds_file.
Qed.

Lemma output_name_suffix_witness :
  output_name "Merged.GDS" = "Merged.GDS"%string /\
  output_name "merged" = "merged.gds"%string /\
  endswith (output_name "merged") ".gds" = true.
Proof.
  split; [|split].
  - apply (proj1 (proj2 (proj1 output_name_suffix "Merged.GDS"))). reflexivity.
  - apply (proj2 (proj2 (proj1 output_name_suffix "merged"))). reflexivity.
  - apply (proj2 (proj2 (proj1 output_name_suffix "merged"))). reflexivity.
Defined.

(** ** Error messages *)

Lemma prefix_append x s t : String.prefix x s = true -> String.prefix x (s +:+ t) = true.
Proof.
  revert s. induction x as [|a x IH]; intros s.
  - by destruct (s +:+ t).
  - destruct s as [|b s]; [done|]. rewrite append_String. cbn [String.prefix].
    destruct (ascii_dec a b); [apply IH | done].
Qed.

Lemma prefix_refl x : String.prefix x x = true.
Proof.
  induction x as [|a x IH]; [done|]. cbn [String.prefix].
  by destruct (ascii_dec a a).
Qed.

Lemma contains_prefix x s : String.prefix x s = true -> contains x s = true.
Proof. intros H. destruct s; cbn [contains]; by rewrite H. Qed.

Lemma contains_append_l x s t : contains x s = true -> contains x (s +:+ t) = true.
Proof.
  induction s as [|b s IH].
  - cbn [contains]. rewrite orb_false_r. intros H.
    apply contains_prefix. by apply (prefix_append x EmptyString t).
  - rewrite append_String. cbn [contains]. rewrite !orb_true_iff.
    intros [H|H]; [left | right; by apply IH].
    by apply (prefix_append x (String b s) t).
Qed.

Lemma contains_append_r x s t : contains x t = true -> contains x (s +:+ t) = true.
Proof.
  intros H. induction s as [|b s IH]; rewrite ?append_empty, ?append_String; [done|].
  cbn [contains]. rewrite IH. apply orb_true_r.
Qed.

Lemma contains_middle x s t : contains x (s +:+ x +:+ t) = true.
Proof.
  apply contains_append_r, contains_append_l, contains_prefix, prefix_refl.
Qed.

(** C9 as stated fails: for a label of 13 characters the loop prints the
    length message, which does not contain the label; for the choice 7 among
    two cells the menu prints [Invalid number.], which does not contain 7. *)
Lemma error_messages_without_value :
  barcode_loop ["ABCDEFGHIJKLM"%string] [] =
    (EndOfInput,
     [barcode_prompt;
      "Error: Barcode must be between 1 and 12 characters long. Please use only A-Z, 0-9, and the characters: - . $ / + %"%string;
      barcode_prompt]) /\
  ~ names "Error: Barcode must be between 1 and 12 characters long. Please use only A-Z, 0-9, and the characters: - . $ / + %"
      "ABCDEFGHIJKLM" /\
  menu_loop int_decimal ["TOP_A"%string; "TOP_B"%string] ["7"%string] [] =
    (EndOfInput,
     ["Enter number of the cell to merge (1-2): "%string; "Invalid number."%string;
      "Enter number of the cell to merge (1-2): "%string]) /\
  int_decimal "7" = Some 7%Z /\
  ~ names "Invalid number." "7".
Proof.
  split; [reflexivity|]. split; [by vm_compute|].
  split; [reflexivity|]. split; [reflexivity|]. by vm_compute.
Qed.

(** C9 (amended): the message of the missing-file handlers names the file
    name and the message of the invalid-character handler names the
    character.  The message for an invalid barcode length is one fixed text
    whatever the string, which the exception carries without printing it, and
    the message for an out-of-range menu index is the fixed text
    [Invalid number.]. *)
Theorem error_messages :
  (forall (Library : Type) (read_gds : string -> option Library)
          prompt loaded gds_file pending printed,
     read_gds gds_file = None ->
     load_loop read_gds prompt loaded (gds_file :: pending) printed =
       load_loop read_gds prompt loaded pending
         ((printed ++ [prompt]) ++ [not_found_line gds_file]) /\
     names (not_found_line gds_file) gds_file) /\
  (forall line c pending printed,
     check_barcode (upper line) = inl (InvalidBarcodeCharacter c) ->
     barcode_loop (line :: pending) printed =
       barcode_loop pending
         ((printed ++ [barcode_prompt]) ++ [barcode_error_line (InvalidBarcodeCharacter c)]) /\
     names (barcode_error_line (InvalidBarcodeCharacter c)) (String c EmptyString)) /\
  (forall line barcode_label pending printed,
     check_barcode (upper line) = inl (InvalidBarcodeLength barcode_label) ->
     barcode_label = upper line /\
     barcode_loop (line :: pending) printed =
       barcode_loop pending
         ((printed ++ [barcode_prompt]) ++
          ["Error: Barcode must be between 1 and 12 characters long. Please use only A-Z, 0-9, and the characters: - . $ / + %"%string])) /\
  (forall (int : string -> option Z) (A : Type) (user_top_cells : list A)
          line choice pending printed,
     int line = Some choice ->
     ~ (1 <= choice <= Z.of_nat (length user_top_cells))%Z ->
     menu_loop int user_top_cells (line :: pending) printed =
       menu_loop int user_top_cells pending
         ((printed ++ [menu_prompt (length user_top_cells)]) ++ ["Invalid number."%string])).
Proof.
  split; [|split; [|split]].
  - intros Library read_gds prompt loaded gds_file pending printed Hread.
    cbn [load_loop]. rewrite Hread. split; [reflexivity|].
    apply contains_middle.
  - intros line c pending printed Hcheck.
    rewrite barcode_loop_step, Hcheck. split; [reflexivity|].
    unfold names, barcode_error_line, exn_str.
    apply contains_append_r, contains_append_l, contains_append_r.
    apply (contains_middle (String c EmptyString) ": '" "'").
  - intros line barcode_label pending printed Hcheck.
    rewrite barcode_loop_step, Hcheck. split; [|reflexivity].
    destruct (check_barcode_cases (upper line))
      as [[_ H]|[(_ & b & c & a & _ & _ & _ & H)|(_ & _ & H)]];
      rewrite H in Hcheck; by simplify_eq.
  - intros int A user_top_cells line choice pending printed Hint Hrange.
    cbn [menu_loop]. rewrite Hint.
    destruct (_ && _) eqn:Hb; [|reflexivity].
    apply andb_true_iff in Hb as [H1%Z.leb_le H2%Z.leb_le]. lia.
Qed.

Lemma error_messages_witness :
  names (not_found_line "reticle.gds") "reticle.gds" /\
  names (barcode_error_line (InvalidBarcodeCharacter "#")) "#" /\
  barcode_loop ["ABCDEFGHIJKLM"%string; "ab12"%string] [] =
    barcode_loop ["ab12"%string]
      (([] ++ [barcode_prompt]) ++
       ["Error: Barcode must be between 1 and 12 characters long. Please use only A-Z, 0-9, and the characters: - . $ / + %"%string]) /\
  menu_loop int_decimal ["TOP_A"%string; "TOP_B"%string] ["7"%string; "2"%string] [] =
    menu_loop int_decimal ["TOP_A"%string; "TOP_B"%string] ["2"%string]
      (([] ++ [menu_prompt 2]) ++ ["Invalid number."%string]).
Proof.
  split; [|split; [|split]].
  - apply (proj1 error_messages unit (fun _ => None) EmptyString (fun f => f)
             "reticle.gds" [] []). reflexivity.
  - apply (proj1 (proj2 error_messages) "ab#" "#"%char [] []). reflexivity.
  - apply (proj1 (proj2 (proj2 error_messages)) "ABCDEFGHIJKLM" "ABCDEFGHIJKLM").
    reflexivity.
  - apply (proj2 (proj2 (proj2 error_messages)) int_decimal string
             ["TOP_A"%string; "TOP_B"%string] "7" 7%Z); [reflexivity|].
    vm_compute. intros [_ H]. by apply H.
Defined.

(** * Further properties *)

(** ** The table as a code *)

Lemma codedict_items_widths_NoDup :
  NoDup ((fun item => widths (snd item)) <$> codedict_items).
Proof. apply (bool_decide_unpack _). vm_compute. exact I. Qed.

Lemma codedict_injective c1 c2 pat :
  codedict !! c1 = Some pat -> codedict !! c2 = Some pat -> c1 = c2.
Proof.
  intros [i Hi]%codedict_lookup%list_elem_of_lookup
         [j Hj]%codedict_lookup%list_elem_of_lookup.
  assert (i = j) as ->.
  { apply (NoDup_lookup _ i j (widths pat) codedict_items_widths_NoDup);
      rewrite list_lookup_fmap; [by rewrite Hi | by rewrite Hj]. }
  congruence.
Qed.

Lemma codedict_items_not_startstop :
  forallb (fun item => negb (bool_decide (widths (snd item) = widths startstop)))
    codedict_items = true.
Proof. vm_compute. reflexivity. Qed.

Lemma concat_chunks_inj (n : nat) (l1 l2 : list (list Q)) :
  Forall (fun pat => length pat = n) l1 -> Forall (fun pat => length pat = n) l2 ->
  (0 < n)%nat -> concat l1 = concat l2 -> l1 = l2.
Proof.
  intros H1. revert l2. induction H1 as [|p1 l1 Hp1 _ IH]; intros l2 H2 Hn Heq.
  - destruct H2 as [|p2 l2 Hp2 _]; [done|].
    cbn [concat] in Heq. apply (f_equal length) in Heq.
    rewrite length_app in Heq. cbn [length] in Heq. lia.
  - destruct H2 as [|p2 l2 Hp2 H2].
    + cbn [concat] in Heq. apply (f_equal length) in Heq.
      rewrite length_app in Heq. cbn [length] in Heq. lia.
    + cbn [concat] in Heq.
      apply app_inj_1 in Heq as [-> Heq]; [|congruence].
      f_equal. by apply IH.
Qed.

Lemma patterns_lengths (cs : list ascii) patterns :
  Forall2 (fun c pat => codedict !! c = Some pat) cs patterns ->
  Forall (fun pat => length pat = 10%nat) patterns.
Proof.
  induction 1 as [|c pat cs patterns Hpat _ IH]; constructor; [|exact IH].
  by destruct (codedict_symbol_pattern _ _ Hpat).
Qed.

Lemma patterns_chars_inj (cs1 cs2 : list ascii) patterns :
  Forall2 (fun c pat => codedict !! c = Some pat) cs1 patterns ->
  Forall2 (fun c pat => codedict !! c = Some pat) cs2 patterns ->
  cs1 = cs2.
Proof.
  intros H1. revert cs2. induction H1 as [|c pat cs patterns Hpat _ IH]; intros cs2 H2.
  - by inversion H2.
  - inversion H2 as [|c' ? cs' ? Hpat' H2']; subst.
    f_equal; [by eapply codedict_injective | by apply IH].
Qed.

Lemma chars_inj s1 s2 : chars s1 = chars s2 -> s1 = s2.
Proof.
  unfold chars. intros H.
  rewrite <- (string_of_list_ascii_of_string s1), <- (string_of_list_ascii_of_string s2).
  by rewrite H.
Qed.

Lemma str2code_inr_keys s barcode :
  str2code s = inr barcode -> Forall is_key (chars s).
Proof.
  intros Hs. destruct (decide (Forall is_key (chars s))) as [|Hn]; [done|].
  destruct (str2code_not_key s Hn) as (? & c & ? & _ & _ & _ & Hc). congruence.
Qed.

(** X1: the encoding can be decoded in one way only.  Two characters of the
    table never share a pattern, no pattern has the widths of the start/stop
    pattern, and two strings that [str2code] encodes to the same token
    sequence are equal. *)
Theorem str2code_injective :
  (forall c1 c2 pat,
     codedict !! c1 = Some pat -> codedict !! c2 = Some pat -> c1 = c2) /\
  (forall c pat, codedict !! c = Some pat -> widths pat <> widths startstop) /\
  (forall s1 s2 barcode,
     str2code s1 = inr barcode -> str2code s2 = inr barcode -> s1 = s2).
Proof.
  split; [exact codedict_injective|]. split.
  - intros c pat Hin%codedict_lookup%list_elem_of_In.
    pose proof (proj1 (forallb_forall _ _) codedict_items_not_startstop _ Hin) as H.
    cbn [snd] in H. apply negb_true_iff, bool_decide_eq_false in H. exact H.
  - intros s1 s2 barcode H1 H2.
    destruct (str2code_keys s1 (str2code_inr_keys _ _ H1)) as (p1 & Hp1 & E1).
    destruct (str2code_keys s2 (str2code_inr_keys _ _ H2)) as (p2 & Hp2 & E2).
    rewrite E1 in H1. rewrite E2 in H2.
    assert (Heq : startstop ++ concat p1 ++ startstop
                  = startstop ++ concat p2 ++ startstop) by congruence.
    apply app_inv_head, app_inv_tail in Heq.
    apply (concat_chunks_inj 10) in Heq;
      [|by eapply patterns_lengths..|lia].
    subst p2. apply chars_inj. by eapply patterns_chars_inj.
Qed.

Lemma str2code_injective_witness :
  "A"%char = "A"%char /\
  widths [nb; ws; nb; ws; nb; ws; nb; ns; nb; ns] <> widths startstop /\
  "AB12"%string = "AB12"%string.
Proof.
  split; [|split].
  - apply (proj1 str2code_injective "A"%char "A"%char
             [wb; ns; nb; ns; nb; ws; nb; ns; wb; ns]); reflexivity.
  - apply (proj1 (proj2 str2code_injective) "$"%char). reflexivity.
  - destruct (str2code "AB12") as [e|barcode] eqn:H; [discriminate H|].
    apply (proj2 (proj2 str2code_injective) "AB12" "AB12" barcode); exact H.
Defined.

(** ** The shape of an encoded barcode *)

Lemma is_ink_pos t : is_ink t = true -> (0 < t)%Q.
Proof. unfold is_ink. by destruct (Qlt_le_dec 0 t). Qed.

Lemma is_gap_neg t : is_gap t = true -> (t < 0)%Q.
Proof. unfold is_gap. destruct (Qlt_le_dec 0 (- t)); [lra | done]. Qed.

Lemma alternatingb_sound ink tokens :
  alternatingb ink tokens = true -> alternating ink tokens.
Proof.
  revert ink. induction tokens as [|t tokens IH]; intros ink; [done|].
  cbn [alternatingb alternating]. intros [Ht Hrest]%andb_true_iff.
  split; [|by apply IH].
  destruct ink; [by apply is_ink_pos | by apply is_gap_neg].
Qed.

Lemma alternating_app ink l1 l2 :
  alternating ink (l1 ++ l2) <->
  alternating ink l1 /\ alternating (xorb ink (Nat.odd (length l1))) l2.
Proof.
  revert ink. induction l1 as [|t l1 IH]; intros ink; cbn [app alternating length].
  - rewrite xorb_false_r. tauto.
  - rewrite IH, Nat.odd_succ, <- Nat.negb_odd.
    replace (xorb (negb ink) (Nat.odd (length l1)))
      with (xorb ink (negb (Nat.odd (length l1))))
      by (by destruct ink, (Nat.odd (length l1))).
    tauto.
Qed.

Lemma filter_ink_app l1 l2 :
  length (List.filter is_ink (l1 ++ l2)) =
  (length (List.filter is_ink l1) + length (List.filter is_ink l2))%nat.
Proof. by rewrite List.filter_app, length_app. Qed.

(** What [code39_symbolb] checks. *)
Lemma code39_symbolb_sound pat :
  code39_symbolb pat = true ->
  length pat = 10%nat /\ alternating true pat /\
  length (List.filter is_ink pat) = 5%nat /\ (span pat == 2750)%Q.
Proof.
  unfold code39_symbolb. rewrite !andb_true_iff, !Nat.eqb_eq, Qeq_bool_iff.
  intros [[[Hlen Halt] Hink] Hspan]. auto using alternatingb_sound.
Qed.

Lemma codedict_items_code39 :
  forallb (fun item => code39_symbolb (snd item)) codedict_items = true.
Proof. vm_compute. reflexivity. Qed.

Lemma codedict_code39 c pat :
  codedict !! c = Some pat -> code39_symbolb pat = true.
Proof.
  intros Hin%codedict_lookup%list_elem_of_In.
  exact (proj1 (forallb_forall _ _) codedict_items_code39 _ Hin).
Qed.

Lemma startstop_code39 : code39_symbolb startstop = true.
Proof. vm_compute. reflexivity. Qed.

Lemma patterns_shape (cs : list ascii) (patterns : list (list Q)) :
  Forall2 (fun c pat => codedict !! c = Some pat) cs patterns ->
  alternating true (concat patterns) /\
  Forall bar_token (concat patterns) /\
  length (List.filter is_ink (concat patterns)) = (5 * length cs)%nat /\
  (span (concat patterns) == 2750 * inject_Z (Z.of_nat (length cs)))%Q.
Proof.
  induction 1 as [|c pat cs patterns Hpat _ (IHalt & IHtok & IHink & IHspan)].
  - split; [exact I|]. split; [constructor|]. split; reflexivity.
  - pose proof (codedict_code39 _ _ Hpat) as (Hlen & Halt & Hink & Hspan)%code39_symbolb_sound.
    destruct (codedict_symbol_pattern _ _ Hpat) as [_ Htok].
    cbn [concat length]. split; [|split; [|split]].
    + apply alternating_app. rewrite Hlen. by split.
    + apply Forall_app. by split.
    + rewrite filter_ink_app, Hink, IHink. lia.
    + rewrite span_app, Hspan, IHspan, Nat2Z.inj_succ, <- Z.add_1_r, inject_Z_plus.
      change (inject_Z 1) with 1%Q. lra.
Qed.

(** The width of a barcode of [n] characters and its start and stop symbols. *)
Lemma str2code_shape s barcode :
  str2code s = inr barcode ->
  Forall bar_token barcode /\
  alternating true barcode /\
  length (List.filter is_ink barcode) = (5 * (String.length s + 2))%nat /\
  (span barcode == 2750 * inject_Z (Z.of_nat (String.length s + 2)))%Q /\
  exists tokens, barcode = nb :: tokens ++ [nb; ns].
Proof.
  intros Hs.
  destruct (str2code_keys s (str2code_inr_keys _ _ Hs)) as (patterns & Hp & E).
  assert (barcode = startstop ++ concat patterns ++ startstop) as -> by congruence.
  clear Hs E.
  destruct (patterns_shape _ _ Hp) as (Halt & Htok & Hink & Hspan).
  pose proof startstop_code39 as (Hlen0 & Halt0 & Hink0 & Hspan0)%code39_symbolb_sound.
  destruct startstop_symbol_pattern as [_ Htok0].
  pose proof (concat_patterns_length _ _ Hp) as Hlen.
  rewrite chars_length in Hink, Hspan, Hlen.
  split.
  { apply Forall_app. split; [exact Htok0|].
    apply Forall_app. split; [exact Htok | exact Htok0]. }
  split.
  { apply alternating_app. rewrite Hlen0. split; [exact Halt0|].
    apply alternating_app. rewrite Hlen, Nat.odd_mul. by split. }
  split; [rewrite !filter_ink_app, Hink, Hink0; lia|].
  split.
  { rewrite !span_app, Hspan, Hspan0, Nat2Z.inj_add, inject_Z_plus.
    change (inject_Z (Z.of_nat 2)) with 2%Q. lra. }
  exists ([ws; nb; ns; wb; ns; wb; ns; nb; ns] ++ concat patterns
          ++ [nb; ws; nb; ns; wb; ns; wb; ns]).
  unfold startstop at 1 2. cbn [app]. do 10 f_equal.
  rewrite <- !app_assoc. reflexivity.
Qed.

Lemma alternating_single_gap ink before a gaps b after :
  alternating ink (before ++ a :: gaps ++ b :: after) ->
  (0 < a)%Q -> (0 < b)%Q -> Forall (fun g => ~ 0 < g)%Q gaps ->
  exists g, gaps = [g] /\ (g < 0)%Q.
Proof.
  intros [_ Halt]%alternating_app Ha Hb Hgaps.
  destruct (xorb ink (Nat.odd (length before))); cbn [alternating] in Halt;
    [|lra].
  destruct Halt as [_ Halt]. cbn [negb] in Halt.
  destruct gaps as [|g gaps]; cbn [app alternating] in Halt; [lra|].
  destruct Halt as [Hg Halt]. exists g. split; [|exact Hg].
  destruct gaps as [|g' gaps]; [done|]. cbn [app alternating negb] in Halt.
  apply Forall_cons in Hgaps as [_ [Hg' _]%Forall_cons]. tauto.
Qed.

(** X2: every token sequence that [str2code] returns is made of bar tokens
    that alternate between bar and gap, from a first narrow bar to a final
    narrow gap; for a string of n characters it holds 5 * (n + 2) bars and
    its magnitudes sum to 2750 * (n + 2); two successive bars are always
    separated by exactly one gap token. *)
Theorem str2code_code39 (s : string) (barcode : list Q) :
  str2code s = inr barcode ->
  Forall bar_token barcode /\
  alternating true barcode /\
  length (List.filter is_ink barcode) = (5 * (String.length s + 2))%nat /\
  (span barcode == 2750 * inject_Z (Z.of_nat (String.length s + 2)))%Q /\
  (exists tokens, barcode = nb :: tokens ++ [nb; ns]) /\
  (forall before a gaps b after,
     barcode = before ++ a :: gaps ++ b :: after ->
     (0 < a)%Q -> (0 < b)%Q -> Forall (fun g => ~ 0 < g)%Q gaps ->
     exists g, gaps = [g] /\ (g < 0)%Q /\ (Qabs g == nb \/ Qabs g == wb)%Q).
Proof.
  intros (Htok & Halt & Hink & Hspan & Hends)%str2code_shape.
  split; [exact Htok|]. split; [exact Halt|]. split; [exact Hink|].
  split; [exact Hspan|]. split; [exact Hends|].
  intros before a gaps b after -> Ha Hb Hgaps.
  destruct (alternating_single_gap _ _ _ _ _ _ Halt Ha Hb Hgaps) as (g & -> & Hg).
  exists g. split; [done|]. split; [exact Hg|].
  apply Forall_app in Htok as [_ [_ Htok]%Forall_cons].
  apply Forall_app in Htok as [[[Hmag _] _]%Forall_cons _]. exact Hmag.
Qed.

Lemma str2code_code39_witness :
  exists barcode,
    str2code "AB12" = inr barcode /\
    length (List.filter is_ink barcode) = (5 * (String.length "AB12" + 2))%nat /\
    (span barcode == 2750 * inject_Z (Z.of_nat (String.length "AB12" + 2)))%Q.
Proof.
  destruct (str2code "AB12") as [e|barcode] eqn:H; [discriminate H|].
  exists barcode. split; [reflexivity|].
  destruct (str2code_code39 "AB12" barcode H) as (_ & _ & Hink & Hspan & _).
  by split.
Defined.

(** ** The extent of the barcode cell *)

Lemma box_eq_sym b1 b2 : box_eq b1 b2 -> box_eq b2 b1.
Proof. intros (H1 & H2 & H3 & H4). repeat split; by symmetry. Qed.

Lemma box_eq_trans b1 b2 b3 : box_eq b1 b2 -> box_eq b2 b3 -> box_eq b1 b3.
Proof.
  intros (H1 & H2 & H3 & H4) (G1 & G2 & G3 & G4).
  repeat split; etrans; eassumption.
Qed.

Lemma box_union_eq a a' b b' :
  box_eq a a' -> box_eq b b' -> box_eq (box_union a b) (box_union a' b').
Proof.
  destruct a as [[? ?] [? ?]], a' as [[? ?] [? ?]].
  destruct b as [[? ?] [? ?]], b' as [[? ?] [? ?]].
  unfold box_eq, box_union. cbn [fst snd].
  intros (H1 & H2 & H3 & H4) (G1 & G2 & G3 & G4).
  rewrite H1, H2, H3, H4, G1, G2, G3, G4. repeat split; reflexivity.
Qed.

Lemma barheight_pos : (0 < barheight)%Q.
Proof. reflexivity. Qed.

Lemma half_le h : (0 <= h)%Q -> (- h / 2 <= h / 2)%Q.
Proof.
  intros Hh. unfold Qdiv. apply Qmult_le_compat_r; [lra | by vm_compute].
Qed.

Lemma bar_rectangle_box layer_num datatype_num bar :
  (0 <= snd bar)%Q ->
  box_eq (bounding_box (bar_rectangle layer_num datatype_num bar)) (bar_box bar).
Proof.
  destruct bar as [x w]. cbn [snd]. intros Hw.
  pose proof (half_le barheight (Qlt_le_weak _ _ barheight_pos)) as Hh.
  unfold bounding_box, bar_rectangle, rectangle, bar_box, bar_right, box_eq, box_add.
  cbn [vertex0 vertices fold_left fst snd].
  generalize dependent (- barheight / 2)%Q. intros lo.
  generalize (barheight / 2)%Q. intros hi Hh.
  rewrite !(Q.min_l x (x + w)), (Q.min_id x) by lra.
  rewrite (Q.min_id lo), !(Q.min_l lo hi) by lra.
  rewrite (Q.max_r x (x + w)), (Q.max_id (x + w)), (Q.max_l (x + w) x) by lra.
  rewrite (Q.max_id lo), (Q.max_r lo hi), (Q.max_id hi) by lra.
  repeat split; reflexivity.
Qed.

Lemma bar_rectangle_corners layer_num datatype_num bar :
  let poly := bar_rectangle layer_num datatype_num bar in
  vertex0 poly = (fst bar, - barheight / 2)%Q /\
  vertices poly =
    [(fst bar + snd bar, - barheight / 2); (fst bar + snd bar, barheight / 2);
     (fst bar, barheight / 2)]%Q /\
  layer poly = layer_num /\ datatype poly = datatype_num.
Proof. by repeat split. Qed.

Lemma bar_rectangles_sorted layer_num datatype_num (bs : list (Q * Q)) :
  Forall (fun bar => 0 <= snd bar)%Q bs ->
  StronglySorted (fun bar1 bar2 => bar_right bar1 <= fst bar2)%Q bs ->
  StronglySorted
    (fun poly1 poly2 =>
       fst (snd (bounding_box poly1)) <= fst (fst (bounding_box poly2)))%Q
    (map (bar_rectangle layer_num datatype_num) bs).
Proof.
  intros Hw Hsorted.
  induction Hsorted as [|bar bs _ IH Hnext]; [constructor|].
  apply Forall_cons in Hw as [Hbar Hw]. cbn [map].
  constructor; [by apply IH|].
  apply Forall_forall. intros poly (bar' & -> & Hin)%list_elem_of_fmap.
  pose proof (proj1 (Forall_forall _ _) Hnext _ Hin) as Hle.
  pose proof (proj1 (Forall_forall _ _) Hw _ Hin) as Hw'.
  destruct (bar_rectangle_box layer_num datatype_num bar Hbar) as (_ & _ & H3 & _).
  destruct (bar_rectangle_box layer_num datatype_num bar' Hw') as (H1 & _ & _ & _).
  cbn beta in *. rewrite H3, H1. exact Hle.
Qed.

(** C2: on a token sequence without zero token, [barcad] emits exactly one
    rectangle per positive token, with the corners (x, -barheight/2),
    (x + |token|, -barheight/2), (x + |token|, +barheight/2) and
    (x, +barheight/2), so that it spans [x, x + |token|] horizontally and
    [-barheight/2, +barheight/2] vertically, where the cursor [x] advances by
    |token| at every token of either sign.  Hence there are as many
    rectangles as positive tokens, every token is a rectangle or a gap, the
    final cursor is the sum of all magnitudes, the rectangles lie left to
    right without overlap, and two successive rectangles are separated by
    exactly the magnitudes of the negative tokens between them. *)
Theorem barcad_layout (barcode : list Q) (layer_num datatype_num : Z) :
  Forall (fun t => ~ t == 0)%Q barcode ->
  let code_cell := barcad barcode layer_num datatype_num in
  let xcurr := snd (barcad_loop barcode layer_num datatype_num) in
  polygons code_cell = map (bar_rectangle layer_num datatype_num) (bars 0 barcode) /\
  Forall2
    (fun bar poly =>
       vertex0 poly = (fst bar, - barheight / 2)%Q /\
       vertices poly =
         [(fst bar + snd bar, - barheight / 2); (fst bar + snd bar, barheight / 2);
          (fst bar, barheight / 2)]%Q /\
       layer poly = layer_num /\ datatype poly = datatype_num /\
       box_eq (bounding_box poly)
         ((fst bar, - barheight / 2), (fst bar + snd bar, barheight / 2))%Q)
    (bars 0 barcode) (polygons code_cell) /\
  length (polygons code_cell) = length (List.filter is_ink barcode) /\
  (length (polygons code_cell) + length (List.filter is_gap barcode)
   = length barcode)%nat /\
  (xcurr == span barcode)%Q /\
  Forall (fun bar => 0 <= fst bar /\ 0 < snd bar /\ bar_right bar <= span barcode)%Q
    (bars 0 barcode) /\
  StronglySorted (fun bar1 bar2 => bar_right bar1 <= fst bar2)%Q (bars 0 barcode) /\
  StronglySorted
    (fun poly1 poly2 =>
       fst (snd (bounding_box poly1)) <= fst (fst (bounding_box poly2)))%Q
    (polygons code_cell) /\
  (forall before a gaps b after,
     barcode = before ++ a :: gaps ++ b :: after ->
     (0 < a)%Q -> (0 < b)%Q -> Forall (fun g => ~ 0 < g)%Q gaps ->
     Forall (fun g => g < 0)%Q gaps /\
     (exists bar_a bar_b later,
        bars 0 barcode = bars 0 before ++ bar_a :: bar_b :: later /\
        snd bar_a = Qabs a /\ snd bar_b = Qabs b /\
        (fst bar_a == span before)%Q /\
        (fst bar_b == bar_right bar_a + span gaps)%Q) /\
     (exists earlier poly_a poly_b later,
        polygons code_cell = earlier ++ poly_a :: poly_b :: later /\
        length earlier = length (List.filter is_ink before) /\
        (fst (fst (bounding_box poly_a)) == span before)%Q /\
        (fst (snd (bounding_box poly_a)) == span before + Qabs a)%Q /\
        (fst (fst (bounding_box poly_b))
         == fst (snd (bounding_box poly_a)) + span gaps)%Q /\
        (fst (snd (bounding_box poly_b))
         == fst (fst (bounding_box poly_b)) + Qabs b)%Q)).
Proof.
  intros Hnz. cbv zeta. unfold barcad, barcad_loop.
  destruct (barcad_fold layer_num datatype_num barcode (new_cell "BARCODE") 0%Q)
    as (_ & Hpoly & Hx).
  cbv zeta in Hpoly, Hx. cbn [new_cell polygons app] in Hpoly.
  rewrite Hpoly, Hx, length_map, bars_length.
  assert (Hwidths : forall x tokens, Forall (fun bar => 0 <= snd bar)%Q (bars x tokens)).
  { intros x tokens. eapply Forall_impl; [apply bars_left|].
    intros bar [_ Hw]. cbn beta in *. lra. }
  split; [done|].
  split.
  { apply Forall2_fmap_r, Forall_Forall2_diag.
    eapply Forall_impl; [apply (Hwidths 0%Q barcode)|]. intros bar Hw.
    destruct (bar_rectangle_corners layer_num datatype_num bar) as (H0 & Hv & Hl & Hd).
    split; [exact H0|]. split; [exact Hv|]. split; [exact Hl|]. split; [exact Hd|].
    by apply bar_rectangle_box. }
  split; [done|].
  split; [by apply ink_or_gap|].
  split; [rewrite cursor_span; lra|].
  split.
  { clear. assert (Hgen : forall x,
      Forall (fun bar => x <= fst bar /\ 0 < snd bar /\ bar_right bar <= x + span barcode)%Q
        (bars x barcode)).
    { induction barcode as [|t tokens IH]; intros x; cbn [bars]; [constructor|].
      rewrite span_cons. pose proof (Qabs_nonneg t). pose proof (span_nonneg tokens).
      apply Forall_app. split.
      - destruct (Qlt_le_dec 0 t) as [Hink|]; [|constructor].
        constructor; [|constructor]. unfold bar_right. cbn [fst snd].
        rewrite (Qabs_ink t Hink). lra.
      - eapply Forall_impl; [apply IH|]. intros bar (Hl & Hw & Hr).
        cbn beta in *. lra. }
    eapply Forall_impl; [apply Hgen|]. intros bar (Hl & Hw & Hr).
    cbn beta in *. lra. }
  split; [apply bars_sorted|].
  split; [apply bar_rectangles_sorted; [apply Hwidths | apply bars_sorted]|].
  intros before a gaps b after -> Ha Hb Hgaps.
  split.
  { apply Forall_app in Hnz as [_ Hnz]. apply Forall_cons in Hnz as [_ Hnz].
    apply Forall_app in Hnz as [Hnz _].
    apply Forall_forall. intros g Hg.
    pose proof (proj1 (Forall_forall _ _) Hnz g Hg).
    pose proof (proj1 (Forall_forall _ _) Hgaps g Hg). cbn beta in *. lra. }
  rewrite bars_app. cbn [bars]. rewrite bars_app, (bars_gaps _ gaps Hgaps). cbn [bars].
  destruct (Qlt_le_dec 0 a) as [_|]; [|lra].
  destruct (Qlt_le_dec 0 b) as [_|]; [|lra].
  cbn [app].
  set (xa := fold_left (fun x t => (x + Qabs t)%Q) before 0%Q).
  set (xb := fold_left (fun x t => (x + Qabs t)%Q) gaps (xa + Qabs a)%Q).
  assert (Hxa : (xa == span before)%Q) by (unfold xa; rewrite cursor_span; lra).
  assert (Hxb : (xb == xa + Qabs a + span gaps)%Q) by (unfold xb; apply cursor_span).
  split.
  { eexists _, _, _. split; [reflexivity|].
    cbn [fst snd]. split; [done|]. split; [done|].
    unfold bar_right. cbn [fst snd]. split; [exact Hxa | exact Hxb]. }
  rewrite fmap_app. cbn [fmap list_fmap].
  eexists _, _, _, _. split; [reflexivity|].
  split; [by rewrite length_map, bars_length|].
  destruct (bar_rectangle_box layer_num datatype_num (xa, Qabs a) (Qabs_nonneg a))
    as (A1 & _ & A3 & _).
  destruct (bar_rectangle_box layer_num datatype_num (xb, Qabs b) (Qabs_nonneg b))
    as (B1 & _ & B3 & _).
  unfold bar_box, bar_right in A1, A3, B1, B3. cbn [fst snd] in A1, A3, B1, B3.
  rewrite A1, A3, B1, B3, Hxb, Hxa. repeat split; lra.
Qed.

Lemma barcad_layout_witness :
  Forall2
    (fun bar poly =>
       vertex0 poly = (fst bar, - barheight / 2)%Q /\
       vertices poly =
         [(fst bar + snd bar, - barheight / 2); (fst bar + snd bar, barheight / 2);
          (fst bar, barheight / 2)]%Q /\
       layer poly = 4%Z /\ datatype poly = 0%Z /\
       box_eq (bounding_box poly)
         ((fst bar, - barheight / 2), (fst bar + snd bar, barheight / 2))%Q)
    [(0, Qabs nb); (0 + Qabs nb + Qabs ws, Qabs wb)]%Q
    (polygons (barcad [nb; ws; wb; ns] 4 0)).
Proof.
  refine (proj1 (proj2 (barcad_layout [nb; ws; wb; ns] 4 0 _))).
  repeat constructor; intros H; vm_compute in H; discriminate H.
Defined.

Lemma last_cons_default (x1 : Q) (bar : Q * Q) (bs : list (Q * Q)) :
  default x1 (bar_right <$> last (bar :: bs)) =
  default (bar_right bar) (bar_right <$> last bs).
Proof.
  destruct bs as [|p bs]; [reflexivity|].
  change (last (bar :: p :: bs)) with (last (p :: bs)).
  destruct (last (p :: bs)) eqn:E; [reflexivity|].
  by apply last_None in E.
Qed.

(** The union of the boxes of bars that lie left to right. *)
Lemma fold_bar_boxes layer_num datatype_num (bs : list (Q * Q)) (acc : box) (x0 x1 : Q) :
  box_eq acc ((x0, - barheight / 2), (x1, barheight / 2))%Q ->
  Forall (fun bar => x0 <= fst bar /\ x1 <= bar_right bar /\ 0 < snd bar)%Q bs ->
  StronglySorted (fun bar1 bar2 => bar_right bar1 <= fst bar2)%Q bs ->
  box_eq
    (fold_left (fun b poly => box_union b (bounding_box poly))
       (map (bar_rectangle layer_num datatype_num) bs) acc)
    ((x0, - barheight / 2), (default x1 (bar_right <$> last bs), barheight / 2))%Q.
Proof.
  revert acc x1. induction bs as [|bar bs IH]; intros acc x1 Hacc Hall Hsorted.
  - exact Hacc.
  - apply Forall_cons in Hall as [(Hl & Hr & Hw) Hall].
    apply StronglySorted_inv in Hsorted as [Hsorted Hnext].
    cbn [map fold_left].
    assert (Hstep : box_eq (box_union acc (bounding_box (bar_rectangle layer_num datatype_num bar)))
                      ((x0, - barheight / 2), (bar_right bar, barheight / 2))%Q).
    { eapply box_eq_trans.
      - apply box_union_eq; [exact Hacc | apply bar_rectangle_box; lra].
      - unfold bar_box, box_union, box_eq. cbn [fst snd].
        rewrite (Q.min_l x0 (fst bar)), (Q.max_r x1 (bar_right bar)) by lra.
        rewrite Q.min_id, Q.max_id. repeat split; reflexivity. }
    rewrite (last_cons_default x1 bar bs).
    apply (IH _ (bar_right bar) Hstep); [|exact Hsorted].
    apply Forall_forall. intros bar' Hin.
    pose proof (proj1 (Forall_forall _ _) Hall _ Hin) as (Hl' & _ & Hw').
    pose proof (proj1 (Forall_forall _ _) Hnext _ Hin) as Hn.
    unfold bar_right in *. cbn beta in *. lra.
Qed.

(** The cell that [barcad] builds from any token sequence. *)
Lemma barcad_cell layer_num datatype_num barcode :
  name (barcad barcode layer_num datatype_num) = "BARCODE"%string /\
  polygons (barcad barcode layer_num datatype_num) =
    map (bar_rectangle layer_num datatype_num) (bars 0 barcode) /\
  (snd (barcad_loop barcode layer_num datatype_num) == span barcode)%Q.
Proof.
  unfold barcad, barcad_loop.
  destruct (barcad_fold layer_num datatype_num barcode (new_cell "BARCODE") 0%Q)
    as (Hname & Hpoly & Hx).
  cbv zeta in Hname, Hpoly, Hx.
  rewrite Hname, Hpoly, Hx, cursor_span. repeat split. lra.
Qed.

Lemma barcad_box layer_num datatype_num barcode first more :
  bars 0 barcode = first :: more ->
  exists b,
    bounding_box_of (polygons (barcad barcode layer_num datatype_num)) = Some b /\
    box_eq b ((fst first, - barheight / 2),
              (default (bar_right first) (bar_right <$> last more), barheight / 2))%Q.
Proof.
  intros Hbars. destruct (barcad_cell layer_num datatype_num barcode) as (_ & -> & _).
  rewrite Hbars. cbn [map bounding_box_of]. eexists. split; [reflexivity|].
  pose proof (bars_left 0 barcode) as Hleft.
  pose proof (bars_sorted 0 barcode) as Hsorted.
  rewrite Hbars in Hleft, Hsorted.
  apply Forall_cons in Hleft as [[_ Hw] Hleft].
  apply StronglySorted_inv in Hsorted as [Hsorted Hnext].
  apply fold_bar_boxes; [apply bar_rectangle_box; lra | | exact Hsorted].
  apply Forall_forall. intros bar Hin.
  pose proof (proj1 (Forall_forall _ _) Hleft _ Hin) as [_ Hw'].
  pose proof (proj1 (Forall_forall _ _) Hnext _ Hin) as Hn.
  unfold bar_right in *. cbn beta in *. lra.
Qed.

Lemma bars_snoc_ink x init b :
  (0 < b)%Q ->
  bars x (init ++ [b]) =
    bars x init ++ [(fold_left (fun x t => x + Qabs t)%Q init x, Qabs b)].
Proof.
  intros Hb. rewrite bars_app. cbn [bars].
  destruct (Qlt_le_dec 0 b); [done | lra].
Qed.

(** The box of the barcode cell reaches from the left edge of the first bar
    to the right edge of the last bar. *)
Lemma barcad_extent layer_num datatype_num lead inner trail a rest init b :
  Forall (fun g => ~ 0 < g)%Q lead -> Forall (fun g => ~ 0 < g)%Q trail ->
  inner = a :: rest -> inner = init ++ [b] -> (0 < a)%Q -> (0 < b)%Q ->
  exists box,
    bounding_box_of (polygons (barcad (lead ++ inner ++ trail) layer_num datatype_num))
      = Some box /\
    box_eq box ((span lead, - barheight / 2), (span lead + span inner, barheight / 2))%Q.
Proof.
  intros Hlead Htrail Ha Hb Hpa Hpb.
  set (c1 := fold_left (fun x t => (x + Qabs t)%Q) lead 0%Q).
  assert (Hc1 : (c1 == span lead)%Q) by (unfold c1; rewrite cursor_span; lra).
  assert (Hbars : bars 0 (lead ++ inner ++ trail) = bars c1 inner).
  { rewrite bars_app, (bars_gaps _ lead Hlead), bars_app, (bars_gaps _ trail Htrail).
    by rewrite app_nil_r. }
  assert (Hhead : exists more, bars c1 inner = (c1, Qabs a) :: more).
  { rewrite Ha. cbn [bars]. destruct (Qlt_le_dec 0 a); [|lra]. by eexists. }
  destruct Hhead as [more Hmore].
  assert (Hlast : last (bars c1 inner)
                  = Some (fold_left (fun x t => (x + Qabs t)%Q) init c1, Qabs b)).
  { rewrite Hb, (bars_snoc_ink _ _ _ Hpb). apply last_snoc. }
  destruct (barcad_box layer_num datatype_num (lead ++ inner ++ trail) (c1, Qabs a) more)
    as (box & Hbox & Heq); [by rewrite Hbars|].
  exists box. split; [exact Hbox|].
  eapply box_eq_trans; [exact Heq|].
  assert (Hright : (default (bar_right (c1, Qabs a)) (bar_right <$> last more)
                    == span lead + span inner)%Q).
  { rewrite Hmore in Hlast. destruct more as [|bar more].
    - injection Hlast as Hl Hab. unfold bar_right.
      cbn [last default fmap option_fmap option_map fst snd].
      pose proof (cursor_span init c1) as Hcur. rewrite <- Hl in Hcur.
      rewrite Hab, Hb, span_app, span_cons.
      change (span []) with 0%Q. lra.
    - change (last ((c1, Qabs a) :: bar :: more)) with (last (bar :: more)) in Hlast.
      rewrite Hlast. unfold bar_right.
      cbn [default from_option id fmap option_fmap option_map fst snd]. unfold id.
      rewrite cursor_span, Hb, span_app, span_cons.
      change (span []) with 0%Q. lra. }
  unfold box_eq. cbn [fst snd]. rewrite Hright, Hc1. repeat split; reflexivity.
Qed.

Lemma bars_rectangles_layers layer_num datatype_num (bs : list (Q * Q)) :
  Forall (fun poly => layer poly = layer_num /\ datatype poly = datatype_num)
    (map (bar_rectangle layer_num datatype_num) bs).
Proof. induction bs; constructor; [by split | done]. Qed.

(** X3: the cell built by [barcad] from any token sequence is named BARCODE
    and all its polygons lie on the given layer and datatype.  Without a
    positive token it is empty.  Otherwise its bounding box reaches from the
    left edge of the first bar to the right edge of the last bar and from
    -barheight/2 to +barheight/2: gaps before the first bar shift it, gaps
    after the last bar do not widen it. *)
Theorem barcad_bounding_box (barcode : list Q) (layer_num datatype_num : Z) :
  let code_cell := barcad barcode layer_num datatype_num in
  name code_cell = "BARCODE"%string /\
  Forall (fun poly => layer poly = layer_num /\ datatype poly = datatype_num)
    (polygons code_cell) /\
  (Forall (fun g => ~ 0 < g)%Q barcode ->
   polygons code_cell = [] /\ bounding_box_of (polygons code_cell) = None) /\
  (forall lead inner trail a rest init b,
     barcode = lead ++ inner ++ trail ->
     Forall (fun g => ~ 0 < g)%Q lead -> Forall (fun g => ~ 0 < g)%Q trail ->
     inner = a :: rest -> inner = init ++ [b] -> (0 < a)%Q -> (0 < b)%Q ->
     exists box,
       bounding_box_of (polygons code_cell) = Some box /\
       box_eq box
         ((span lead, - barheight / 2), (span lead + span inner, barheight / 2))%Q).
Proof.
  cbv zeta.
  destruct (barcad_cell layer_num datatype_num barcode) as (Hname & Hpoly & _).
  split; [exact Hname|].
  split; [rewrite Hpoly; apply bars_rectangles_layers|].
  split.
  - intros Hgaps. by rewrite Hpoly, (bars_gaps _ _ Hgaps).
  - intros lead inner trail a rest init b ->. by apply barcad_extent.
Qed.

Lemma barcad_bounding_box_witness :
  exists box,
    bounding_box_of (polygons (barcad [ns; wb; ns; nb; ws] 4 0)) = Some box /\
    box_eq box
      ((span [ns], - barheight / 2), (span [ns] + span [wb; ns; nb], barheight / 2))%Q.
Proof.
  apply (proj2 (proj2 (proj2 (barcad_bounding_box [ns; wb; ns; nb; ws] 4 0)))
           [ns] [wb; ns; nb] [ws] wb [ns; nb] [wb; ns] nb).
  - reflexivity.
  - repeat constructor. by vm_compute.
  - repeat constructor. by vm_compute.
  - reflexivity.
  - reflexivity.
  - reflexivity.
  - reflexivity.
Defined.

(** The box of a cell drawn from a sequence that begins with a narrow bar
    and ends with a narrow bar and a narrow gap. *)
Lemma framed_barcad_box layer_num datatype_num tokens :
  exists box,
    bounding_box_of (polygons (barcad (nb :: tokens ++ [nb; ns]) layer_num datatype_num))
      = Some box /\
    box_eq box ((0, -2500), (span (nb :: tokens ++ [nb; ns]) - 200, 2500))%Q.
Proof.
  destruct (barcad_extent layer_num datatype_num [] (nb :: tokens ++ [nb]) [ns]
              nb (tokens ++ [nb]) (nb :: tokens) nb)
    as (box & Hbox & Heq); try done.
  { repeat constructor. by vm_compute. }
  exists box. split.
  { rewrite <- Hbox. do 3 f_equal. cbn [app]. by rewrite <- app_assoc. }
  eapply box_eq_trans; [exact Heq|].
  assert (Hinner : (span (nb :: tokens ++ [nb]) == span (nb :: tokens ++ [nb; ns]) - 200)%Q).
  { rewrite !span_cons, !span_app, !span_cons. change (span []) with 0%Q.
    assert (Hns : (Qabs ns == 200)%Q) by reflexivity. rewrite Hns. lra. }
  unfold box_eq. cbn [fst snd]. change (span []) with 0%Q.
  rewrite Hinner. repeat split; try reflexivity; lra.
Qed.

(** X4: for a string of n characters that [str2code] encodes, the barcode
    cell holds 5 * (n + 2) rectangles, the cursor ends at 2750 * (n + 2), and
    the bounding box of the cell is [0, 2750 * (n + 2) - 200] by
    [-2500, 2500]: the barcode begins with a bar at the origin and ends 200
    before the final cursor. *)
Theorem str2code_barcad (s : string) (barcode : list Q) (layer_num datatype_num : Z) :
  str2code s = inr barcode ->
  length (polygons (barcad barcode layer_num datatype_num))
    = (5 * (String.length s + 2))%nat /\
  (snd (barcad_loop barcode layer_num datatype_num)
   == 2750 * inject_Z (Z.of_nat (String.length s + 2)))%Q /\
  exists box,
    bounding_box_of (polygons (barcad barcode layer_num datatype_num)) = Some box /\
    box_eq box
      ((0, -2500), (2750 * inject_Z (Z.of_nat (String.length s + 2)) - 200, 2500))%Q.
Proof.
  intros (_ & _ & Hink & Hspan & tokens & ->)%str2code_shape.
  destruct (barcad_cell layer_num datatype_num (nb :: tokens ++ [nb; ns]))
    as (_ & Hpoly & Hx).
  split; [by rewrite Hpoly, length_map, bars_length|].
  split; [by rewrite Hx|].
  destruct (framed_barcad_box layer_num datatype_num tokens) as (box & Hbox & Heq).
  exists box. split; [exact Hbox|].
  eapply box_eq_trans; [exact Heq|].
  unfold box_eq. cbn [fst snd]. rewrite Hspan. repeat split; reflexivity.
Qed.

Lemma str2code_barcad_witness :
  exists barcode,
    str2code "AB12" = inr barcode /\
    length (polygons (barcad barcode 4 0)) = 30%nat /\
    (snd (barcad_loop barcode 4 0) == 16500)%Q.
Proof.
  destruct (str2code "AB12") as [e|barcode] eqn:H; [discriminate H|].
  exists barcode. split; [reflexivity|].
  destruct (str2code_barcad "AB12" barcode 4 0 H) as (Hn & Hx & _).
  split; [exact Hn|]. rewrite Hx. reflexivity.
Defined.

(** ** The interactive loops *)

Lemma barcode_rejected_step line pending printed :
  barcode_rejected line ->
  barcode_loop (line :: pending) printed =
    barcode_loop pending (printed ++ barcode_rejection line).
Proof.
  intros [e He]. rewrite barcode_loop_step. unfold barcode_rejection.
  rewrite He. by rewrite <- app_assoc.
Qed.

Lemma barcode_loop_rejected before pending printed :
  Forall barcode_rejected before ->
  barcode_loop (before ++ pending) printed =
    barcode_loop pending (printed ++ concat (barcode_rejection <$> before)).
Proof.
  intros Hb. revert printed.
  induction Hb as [|line before Hline _ IH]; intros printed.
  - cbn. by rewrite app_nil_r.
  - cbn [app fmap list_fmap concat].
    rewrite (barcode_rejected_step _ _ _ Hline), IH. by rewrite <- app_assoc.
Qed.

(** X5: the barcode loop stops at the first line whose upper-cased form
    passes the checks and returns that form with the lines after it; for every
    line before, it has printed the prompt and that line's error.  When no
    line passes, it runs to the end of the input, and it never lets an
    exception escape. *)
Theorem barcode_loop_first_valid (pending printed : list string) :
  (forall before line rest,
     pending = before ++ line :: rest ->
     Forall barcode_rejected before ->
     check_barcode (upper line) = inr (upper line) ->
     barcode_loop pending printed =
       (Done (upper line) rest,
        printed ++ concat (barcode_rejection <$> before)
          ++ [barcode_prompt; barcode_valid_line (upper line)])) /\
  (Forall barcode_rejected pending ->
   barcode_loop pending printed =
     (EndOfInput,
      printed ++ concat (barcode_rejection <$> pending) ++ [barcode_prompt])) /\
  (forall e out, barcode_loop pending printed <> (Uncaught e, out)).
Proof.
  split; [|split].
  - intros before line rest -> Hbefore Hline.
    rewrite (barcode_loop_rejected _ _ _ Hbefore), barcode_loop_step, Hline.
    by rewrite <- !app_assoc.
  - intros Hall. rewrite <- (app_nil_r pending) at 1.
    rewrite (barcode_loop_rejected _ _ _ Hall). cbn [barcode_loop].
    by rewrite <- app_assoc.
  - intros e out. apply barcode_loop_caught.
Qed.

Lemma barcode_loop_first_valid_witness :
  barcode_loop [EmptyString; "ab#"%string; "ab12"%string; "out"%string] [] =
    (Done "AB12"%string ["out"%string],
     [] ++ concat (barcode_rejection <$> [EmptyString; "ab#"%string])
        ++ [barcode_prompt; barcode_valid_line "AB12"]).
Proof.
  apply (proj1 (barcode_loop_first_valid
                  [EmptyString; "ab#"%string; "ab12"%string; "out"%string] [])
           [EmptyString; "ab#"%string] "ab12"%string ["out"%string]).
  - reflexivity.
  - repeat constructor; eexists; reflexivity.
  - reflexivity.
Defined.

Lemma scale_loop_step line pending printed :
  scale_loop (line :: pending) printed =
    match scale_answer line with
    | Some factor =>
        (Done factor pending,
         (printed ++ [scale_prompt]) ++
         [if bool_decide (lower line ∈ ["w"%string; "wafer"%string])
          then "Applying 4x magnification for wafer scale."%string
          else "Applying 1x magnification for reticle scale."%string])
    | None => scale_loop pending ((printed ++ [scale_prompt]) ++ [scale_invalid_line])
    end.
Proof.
  cbn [scale_loop]. unfold scale_answer.
  destruct (bool_decide (lower line ∈ ["w"%string; "wafer"%string])); [done|].
  by destruct (bool_decide (lower line ∈ ["r"%string; "reticle"%string])).
Qed.

Lemma scale_loop_rejected before pending printed :
  Forall (fun line => scale_answer line = None) before ->
  scale_loop (before ++ pending) printed =
    scale_loop pending
      (printed ++ concat ((fun _ => [scale_prompt; scale_invalid_line]) <$> before)).
Proof.
  intros Hb. revert printed.
  induction Hb as [|line before Hline _ IH]; intros printed.
  - cbn. by rewrite app_nil_r.
  - cbn [app fmap list_fmap concat].
    rewrite scale_loop_step, Hline, IH. by rewrite <- !app_assoc.
Qed.

(** X6: the scale loop takes the first line that, lower-cased, is w, wafer,
    r or reticle, and ends with the factor 4 for the first two and 1 for the
    others; every line before it costs one prompt and one error line, and
    nothing else is ever returned. *)
Theorem scale_loop_first_answer (pending printed : list string) :
  (forall before line rest,
     pending = before ++ line :: rest ->
     Forall (fun line => scale_answer line = None) before ->
     is_Some (scale_answer line) ->
     exists factor message,
       scale_loop pending printed =
         (Done factor rest,
          printed ++ concat ((fun _ => [scale_prompt; scale_invalid_line]) <$> before)
            ++ [scale_prompt; message]) /\
       (lower line ∈ ["w"%string; "wafer"%string] -> factor = 4.0%Q) /\
       (lower line ∉ ["w"%string; "wafer"%string] ->
        lower line ∈ ["r"%string; "reticle"%string] /\ factor = 1.0%Q)) /\
  (forall factor rest out,
     scale_loop pending printed = (Done factor rest, out) ->
     factor = 4.0%Q \/ factor = 1.0%Q).
Proof.
  split.
  - intros before line rest -> Hbefore [factor Hline].
    rewrite (scale_loop_rejected _ _ _ Hbefore), scale_loop_step, Hline.
    eexists factor, _. split; [by rewrite <- !app_assoc|].
    unfold scale_answer in Hline.
    destruct (bool_decide (lower line ∈ ["w"%string; "wafer"%string])) eqn:Hw.
    + apply bool_decide_eq_true in Hw. split; [intros _; congruence | done].
    + apply bool_decide_eq_false in Hw. split; [done|]. intros _.
      destruct (bool_decide (lower line ∈ ["r"%string; "reticle"%string])) eqn:Hr;
        [|done].
      apply bool_decide_eq_true in Hr. split; [done | congruence].
  - revert printed. induction pending as [|line pending IH]; intros printed factor rest out.
    + cbn [scale_loop]. intros [=].
    + rewrite scale_loop_step. unfold scale_answer.
      destruct (bool_decide (lower line ∈ ["w"%string; "wafer"%string]));
        [intros [= <- _ _]; by left|].
      destruct (bool_decide (lower line ∈ ["r"%string; "reticle"%string]));
        [intros [= <- _ _]; by right|].
      apply IH.
Qed.

Lemma scale_loop_first_answer_witness :
  exists factor message,
    scale_loop ["x"%string; "Wafer"%string; "r"%string] [] =
      (Done factor ["r"%string],
       [] ++ concat ((fun _ => [scale_prompt; scale_invalid_line]) <$> ["x"%string])
          ++ [scale_prompt; message]) /\
    (lower "Wafer" ∈ ["w"%string; "wafer"%string] -> factor = 4.0%Q) /\
    (lower "Wafer" ∉ ["w"%string; "wafer"%string] ->
     lower "Wafer" ∈ ["r"%string; "reticle"%string] /\ factor = 1.0%Q).
Proof.
  apply (proj1 (scale_loop_first_answer ["x"%string; "Wafer"%string; "r"%string] [])
           ["x"%string] "Wafer"%string ["r"%string]).
  - reflexivity.
  - repeat constructor.
  - by eexists.
Defined.

Lemma menu_loop_step {A : Type} (int : string -> option Z) (user_top_cells : list A)
    line pending printed :
  menu_loop int user_top_cells (line :: pending) printed =
    match menu_choice int (length user_top_cells) line with
    | Some i =>
        (Done (user_top_cells !! i) pending,
         printed ++ [menu_prompt (length user_top_cells)])
    | None =>
        menu_loop int user_top_cells pending
          (printed ++ menu_rejection int (length user_top_cells) line)
    end.
Proof.
  cbn [menu_loop]. unfold menu_choice, menu_rejection.
  destruct (int line) as [choice|]; [|by rewrite <- app_assoc].
  destruct (_ && _); [done | by rewrite <- app_assoc].
Qed.

Lemma menu_loop_rejected {A : Type} (int : string -> option Z) (user_top_cells : list A)
    before pending printed :
  Forall (fun line => menu_choice int (length user_top_cells) line = None) before ->
  menu_loop int user_top_cells (before ++ pending) printed =
    menu_loop int user_top_cells pending
      (printed ++ concat (menu_rejection int (length user_top_cells) <$> before)).
Proof.
  intros Hb. revert printed.
  induction Hb as [|line before Hline _ IH]; intros printed.
  - cbn. by rewrite app_nil_r.
  - cbn [app fmap list_fmap concat].
    rewrite menu_loop_step, Hline, IH. by rewrite <- !app_assoc.
Qed.

Lemma menu_choice_in_range (int : string -> option Z) (n : nat) line i :
  menu_choice int n line = Some i ->
  (i < n)%nat /\ int line = Some (Z.of_nat i + 1)%Z.
Proof.
  unfold menu_choice. destruct (int line) as [choice|]; [|done].
  destruct (_ && _) eqn:Hb; [|done].
  apply andb_true_iff in Hb as [H1%Z.leb_le H2%Z.leb_le].
  intros [= <-]. split; [lia|]. f_equal. lia.
Qed.

Lemma menu_loop_done {A : Type} (int : string -> option Z) (user_top_cells : list A)
    pending printed selected rest out :
  menu_loop int user_top_cells pending printed = (Done selected rest, out) ->
  exists i cell,
    selected = Some cell /\ user_top_cells !! i = Some cell /\
    exists before line,
      pending = before ++ line :: rest /\ int line = Some (Z.of_nat i + 1)%Z.
Proof.
  revert printed. induction pending as [|line pending IH]; intros printed.
  - cbn [menu_loop]. intros [=].
  - rewrite menu_loop_step.
    destruct (menu_choice int (length user_top_cells) line) as [i|] eqn:Hc.
    + apply menu_choice_in_range in Hc as [Hi Hint].
      intros [= <- <- _].
      destruct (lookup_lt_is_Some_2 user_top_cells i Hi) as [cell Hcell].
      exists i, cell. split; [exact Hcell|]. split; [exact Hcell|].
      by exists [], line.
    + intros (i & cell & -> & Hcell & before & l & -> & Hint)%IH.
      exists i, cell. split; [done|]. split; [done|].
      by exists (line :: before), l.
Qed.

Lemma menu_loop_no_exception {A : Type} (int : string -> option Z)
    (user_top_cells : list A) pending printed e out :
  menu_loop int user_top_cells pending printed <> (Uncaught e, out).
Proof.
  revert printed. induction pending as [|line pending IH]; intros printed.
  - cbn [menu_loop]. intros [=].
  - rewrite menu_loop_step. destruct (menu_choice _ _ _); [intros [=] | apply IH].
Qed.

(** X9: the cell menu takes the first line on which [int] reads a number
    between 1 and the number of cells, and selects the cell at that 1-based
    position; the indexing never leaves the list.  A line with another number
    costs the prompt and [Invalid number.], a line that is no number costs
    the prompt and the other error line. *)
Theorem menu_loop_first_choice (A : Type) (int : string -> option Z)
    (user_top_cells : list A) (pending printed : list string) :
  (forall before line rest i,
     pending = before ++ line :: rest ->
     Forall (fun line => menu_choice int (length user_top_cells) line = None) before ->
     menu_choice int (length user_top_cells) line = Some i ->
     exists cell,
       user_top_cells !! i = Some cell /\
       int line = Some (Z.of_nat i + 1)%Z /\
       menu_loop int user_top_cells pending printed =
         (Done (Some cell) rest,
          printed ++ concat (menu_rejection int (length user_top_cells) <$> before)
            ++ [menu_prompt (length user_top_cells)])) /\
  (forall selected rest out,
     menu_loop int user_top_cells pending printed = (Done selected rest, out) ->
     exists cell, selected = Some cell /\ cell ∈ user_top_cells).
Proof.
  split.
  - intros before line rest i -> Hbefore Hline.
    pose proof (menu_choice_in_range _ _ _ _ Hline) as [Hi Hint].
    destruct (lookup_lt_is_Some_2 user_top_cells i Hi) as [cell Hcell].
    exists cell. split; [exact Hcell|]. split; [exact Hint|].
    rewrite (menu_loop_rejected _ _ _ _ _ Hbefore), menu_loop_step, Hline, Hcell.
    by rewrite <- !app_assoc.
  - intros selected rest out (i & cell & -> & Hcell & _)%menu_loop_done.
    exists cell. split; [done|]. by eapply list_elem_of_lookup_2.
Qed.

Lemma menu_loop_first_choice_witness :
  exists cell,
    ["TOP_A"%string; "TOP_B"%string] !! 1%nat = Some cell /\
    int_decimal "2" = Some (Z.of_nat 1 + 1)%Z /\
    menu_loop int_decimal ["TOP_A"%string; "TOP_B"%string]
      ["7"%string; "b"%string; "2"%string; "w"%string] [] =
      (Done (Some cell) ["w"%string],
       [] ++ concat (menu_rejection int_decimal 2 <$> ["7"%string; "b"%string])
          ++ [menu_prompt 2]).
Proof.
  apply (proj1 (menu_loop_first_choice string int_decimal
                  ["TOP_A"%string; "TOP_B"%string]
                  ["7"%string; "b"%string; "2"%string; "w"%string] [])
           ["7"%string; "b"%string] "2"%string ["w"%string] 1%nat).
  - reflexivity.
  - repeat constructor.
  - reflexivity.
Defined.

(** X10: the cell selection exits when every top-level cell is named
    $$$CONTEXT_INFO$$$ (or there is none), takes the only other cell without
    reading a line when there is exactly one, and otherwise asks the menu.
    The cell it selects is always a top-level cell with another name, and the
    indexing of the menu answer never fails. *)
Theorem select_cell_valid (int : string -> option Z) (top_level : list Cell)
    (pending printed : list string) :
  let user_top_cells :=
    List.filter (fun cell => negb (String.eqb (name cell) CONTEXT_INFO)) top_level in
  (user_top_cells = [] ->
   select_cell int top_level pending printed =
     (Exited, printed ++ ["Error: No valid top-level cell found. Exiting."%string])) /\
  (forall cell, user_top_cells = [cell] ->
   fst (select_cell int top_level pending printed) = Selected cell pending) /\
  fst (select_cell int top_level pending printed) <> IndexError /\
  (forall cell rest,
     fst (select_cell int top_level pending printed) = Selected cell rest ->
     cell ∈ top_level /\ name cell <> CONTEXT_INFO).
Proof.
  cbv zeta. unfold select_cell.
  assert (Hfilter : forall cell,
    cell ∈ List.filter (fun cell => negb (String.eqb (name cell) CONTEXT_INFO)) top_level ->
    cell ∈ top_level /\ name cell <> CONTEXT_INFO).
  { intros cell [Hin Hname]%list_elem_of_In%filter_In.
    split; [by apply list_elem_of_In|].
    apply negb_true_iff, String.eqb_neq in Hname. exact Hname. }
  destruct (List.filter _ top_level) as [|c [|c' cs]] eqn:Hcells.
  - split; [done|]. split; [done|]. split; [done|]. intros cell rest [=].
  - split; [done|]. split; [by intros cell [= ->]|]. split; [done|].
    cbn [fst]. intros cell rest [= <- _]. apply Hfilter. constructor.
  - split; [done|]. split; [done|].
    destruct (menu_loop int (c :: c' :: cs) pending _) as [[selected rest'|e|] out] eqn:Hloop.
    + apply menu_loop_done in Hloop as (i & cell & -> & Hcell%list_elem_of_lookup_2 & _).
      cbn [fst]. split; [done|]. intros cell' rest [= <- _]. by apply Hfilter.
    + by apply menu_loop_no_exception in Hloop.
    + cbn [fst]. split; [done|]. intros cell rest [=].
Qed.

Lemma select_cell_valid_witness :
  fst (select_cell int_decimal
         [mkCell CONTEXT_INFO []; mkCell "TOP" []] ["w"%string] [])
  = Selected (mkCell "TOP" []) ["w"%string].
Proof.
  apply (proj1 (proj2 (select_cell_valid int_decimal
           [mkCell CONTEXT_INFO []; mkCell "TOP" []] ["w"%string] []))).
  reflexivity.
Defined.

(** ** More on the resolver *)

Lemma resolve_conflict_above (user template : gset ld) :
  user ∩ (template ∪ {[ barcode_layer_datatype ]}) <> ∅ ->
  forall p u,
    p ∈ template_pairs_after (resolve user template)
        ∪ {[ annotation_pair (resolve user template) ]} ->
    u ∈ user -> (fst u < fst p)%Z.
Proof.
  intros Hc p u Hp Hu.
  destruct (resolve_conflict _ _ Hc) as (table & Hr & _).
  destruct (max_user_layer_spec user) as (_ & _ & Hub).
  rewrite Hr in Hp. unfold annotation_pair in Hp.
  cbn [template_pairs_after barcode_target_layer] in Hp.
  apply Hub in Hu.
  apply elem_of_union in Hp as [(old & -> & _)%elem_of_map | ->%elem_of_singleton];
    cbn [fst]; lia.
Qed.

(** X11: whatever the two sets of pairs are, after the resolver has run no
    pair of the user design is a pair of the template or the pair on which
    the barcode, the label and the date are drawn. *)
Theorem resolve_collision_free (userPairs templatePairs : gset ld) :
  let r := resolve userPairs templatePairs in
  (template_pairs_after r ∪ {[ annotation_pair r ]}) ∩ userPairs = ∅.
Proof.
  cbv zeta.
  destruct (decide (userPairs ∩ (templatePairs ∪ {[ barcode_layer_datatype ]}) = ∅))
    as [Hc|Hc].
  - rewrite (resolve_no_conflict _ _ Hc). unfold annotation_pair.
    cbn [template_pairs_after barcode_target_layer].
    change (4%Z, 0%Z) with barcode_layer_datatype.
    by rewrite (comm_L (∩)).
  - apply leibniz_equiv. intros u. split; [|by intros ?%not_elem_of_empty].
    intros [Hp Hu]%elem_of_intersection. exfalso.
    pose proof (resolve_conflict_above _ _ Hc _ _ Hp Hu). lia.
Qed.

(** X12: in the conflict case every template pair ends on the one new layer
    with its own datatype, so the datatypes in use are unchanged, and two
    template pairs are sent to the same pair exactly when they have the same
    datatype; the pair on which the barcode is drawn is then also a template
    pair exactly when the template used datatype 0. *)
Theorem resolve_merges (userPairs templatePairs : gset ld) :
  userPairs ∩ (templatePairs ∪ {[ barcode_layer_datatype ]}) <> ∅ ->
  let r := resolve userPairs templatePairs in
  (forall p, p ∈ template_pairs_after r -> fst p = barcode_target_layer r) /\
  (set_map snd (template_pairs_after r) : gset Z) = set_map snd templatePairs /\
  (exists table, remap_dict r = Some table /\
     forall p q, p ∈ templatePairs -> q ∈ templatePairs ->
       (table !! p = table !! q <-> snd p = snd q)) /\
  (annotation_pair r ∈ template_pairs_after r <->
   exists layer, (layer, 0%Z) ∈ templatePairs).
Proof.
  intros Hc. cbv zeta.
  destruct (resolve_conflict _ _ Hc) as (table & -> & Htable).
  unfold annotation_pair. cbn [template_pairs_after barcode_target_layer remap_dict].
  split; [|split; [|split]].
  - by intros p (old & -> & _)%elem_of_map.
  - apply leibniz_equiv. intros dt. rewrite !elem_of_map. split.
    + intros (p & -> & (old & -> & Hold)%elem_of_map). by exists old.
    + intros (old & -> & Hold). eexists. split; [|apply elem_of_map; by exists old].
      done.
  - exists table. split; [done|]. intros p q Hp Hq.
    assert (Hlook : forall o, o ∈ templatePairs ->
      table !! o = Some ((max_or_0 (elements (set_map fst userPairs : gset Z)) + 1)%Z, snd o)).
    { intros o Ho. apply Htable. split; [apply elem_of_union; by left | done]. }
    pose proof (Hlook p Hp) as Ep. pose proof (Hlook q Hq) as Eq. split.
    + intros E.
      assert (E' : Some ((max_or_0 (elements (set_map fst userPairs : gset Z)) + 1)%Z, snd p)
                   = Some ((max_or_0 (elements (set_map fst userPairs : gset Z)) + 1)%Z, snd q)).
      { etrans; [symmetry; exact Ep|]. etrans; [exact E | exact Eq]. }
      by injection E'.
    + intros E. etrans; [exact Ep|]. rewrite E. symmetry. exact Eq.
  - rewrite elem_of_map. split.
    + intros ([layer dt] & [= <-] & Hold). by exists layer.
    + intros [layer Hl]. by exists (layer, 0%Z).
Qed.

Lemma resolve_merges_witness :
  let r := resolve {[ (1, 0)%Z; (2, 3)%Z ]} {[ (1, 0)%Z; (2, 0)%Z; (5, 3)%Z ]} in
  (set_map snd (template_pairs_after r) : gset Z)
    = set_map snd ({[ (1, 0)%Z; (2, 0)%Z; (5, 3)%Z ]} : gset ld).
Proof.
  refine (proj1 (proj2 (resolve_merges {[ (1, 0)%Z; (2, 3)%Z ]}
                          {[ (1, 0)%Z; (2, 0)%Z; (5, 3)%Z ]} _))).
  intros Hc. apply (f_equal elements) in Hc. vm_compute in Hc. discriminate Hc.
Defined.

(** ** More on the output name and on validation *)

(** X13: the output name is the entered name with nothing or [.gds] appended,
    and naming is idempotent: a name that went through it is kept as it is. *)
Theorem output_name_idempotent (output_gds_file : string) :
  output_name (output_name output_gds_file) = output_name output_gds_file /\
  (output_name output_gds_file = output_gds_file \/
   output_name output_gds_file = output_gds_file +:+ ".gds") /\
  (String.length output_gds_file <= String.length (output_name output_gds_file)
   <= String.length output_gds_file + 4)%nat.
Proof.
  assert (Hends : endswith (lower (output_name output_gds_file)) ".gds" = true).
  { unfold output_name.
    destruct (endswith (lower output_gds_file) ".gds") eqn:H; cbn [negb]; [exact H|].
    rewrite lower_append. apply endswith_append. }
  split; [unfold output_name at 1; by rewrite Hends|].
  unfold output_name.
  destruct (endswith (lower output_gds_file) ".gds"); cbn [negb].
  - split; [by left | lia].
  - split; [by right|]. rewrite length_append. cbn [String.length]. lia.
Qed.

(** X14: for a label of 1 to 12 characters the validation accepts exactly
    what the encoder can encode: [check_barcode] returns the label if and
    only if [str2code] returns a token sequence for it. *)
Theorem check_barcode_iff_str2code (barcode_label : string) :
  (1 <= String.length barcode_label <= 12)%nat ->
  (check_barcode barcode_label = inr barcode_label <->
   exists barcode, str2code barcode_label = inr barcode).
Proof.
  intros Hlen. split.
  - intros Hcheck.
    destruct (check_barcode_cases barcode_label)
      as [[_ H]|[(_ & b & c & a & _ & _ & _ & H)|(_ & Hkeys & _)]];
      [congruence | congruence |].
    destruct (str2code_keys _ Hkeys) as (patterns & _ & Hcode). by eexists.
  - intros [barcode Hcode%str2code_inr_keys]. by apply check_barcode_valid.
Qed.

Lemma check_barcode_iff_str2code_witness :
  check_barcode "AB12" = inr "AB12"%string <->
  exists barcode, str2code "AB12" = inr barcode.
Proof. apply (check_barcode_iff_str2code "AB12"). vm_compute. lia. Defined.

(** ** The barcode stage as a whole *)

Lemma barcode_loop_done_first pending printed barcode_label rest out :
  barcode_loop pending printed = (Done barcode_label rest, out) ->
  exists before line,
    pending = before ++ line :: rest /\ Forall barcode_rejected before /\
    barcode_label = upper line /\
    check_barcode (upper line) = inr (upper line).
Proof.
  revert printed. induction pending as [|line pending IH]; intros printed.
  - cbn [barcode_loop]. intros [=].
  - rewrite barcode_loop_step.
    destruct (check_barcode (upper line)) as [e|label] eqn:Hcheck.
    + intros (before & l & -> & Hbefore & -> & Hl)%IH.
      exists (line :: before), l. split; [done|].
      split; [constructor; [by exists e | done] | done].
    + intros [= <- <- _].
      destruct (check_barcode_cases (upper line))
        as [[_ H]|[(_ & b & c & a & _ & _ & _ & H)|(_ & _ & H)]];
        rewrite H in Hcheck; try discriminate Hcheck.
      injection Hcheck as <-. by exists [], line.
Qed.

(** X15: when the barcode stage ends well, the operator's lines were some
    rejected barcode lines, one accepted line and the output file name; the
    written name is [output_name] of the latter and the cell is [barcad] of
    the encoding of the accepted line in upper case, on the target layer and
    datatype 0.  That cell holds 5 * (n + 2) rectangles for the n characters
    of the upper-cased line, which is between 15 and 70, and it begins at 0
    and is at most 38300 wide. *)
Theorem barcode_stage_cell (pending printed : list string) (barcode_target_layer : Z)
    (written : string) (barcode_cell : Cell) (rest out : list string) :
  barcode_stage pending printed barcode_target_layer
    = (Done (written, barcode_cell) rest, out) ->
  exists before line output_gds_file barcode,
    pending = before ++ line :: output_gds_file :: rest /\
    Forall barcode_rejected before /\
    written = output_name output_gds_file /\
    str2code (upper line) = inr barcode /\
    barcode_cell = barcad barcode barcode_target_layer 0 /\
    length (polygons barcode_cell) = (5 * (String.length (upper line) + 2))%nat /\
    (15 <= length (polygons barcode_cell) <= 70)%nat /\
    Forall (fun poly => layer poly = barcode_target_layer /\ datatype poly = 0%Z)
      (polygons barcode_cell) /\
    exists box,
      bounding_box_of (polygons barcode_cell) = Some box /\
      (fst (fst box) == 0 /\ fst (snd box) <= 38300)%Q.
Proof.
  unfold barcode_stage.
  destruct (barcode_loop pending printed) as [[label rest'|e'|] out'] eqn:Hloop;
    [|intros [=]..].
  apply barcode_loop_done_first in Hloop as (before & line & -> & Hbefore & -> & Hcheck).
  destruct rest' as [|output_gds_file rest']; [intros [=]|].
  destruct (str2code (upper line)) as [e|barcode] eqn:Hcode; intros [= <- <- <- <-].
  exists before, line, output_gds_file, barcode.
  destruct (check_barcode_cases (upper line))
    as [[_ H]|[(_ & b & c & a & _ & _ & _ & H)|(Hlen & _ & _)]];
    [congruence | congruence |].
  pose proof (str2code_shape _ _ Hcode) as (_ & _ & Hink & Hspan & tokens & Htokens).
  assert (Hcount : length (polygons (barcad barcode barcode_target_layer 0))
                   = (5 * (String.length (upper line) + 2))%nat).
  { destruct (barcad_cell barcode_target_layer 0%Z barcode) as (_ & -> & _).
    by rewrite length_map, bars_length, Hink. }
  assert (Hbox : exists box,
    bounding_box_of (polygons (barcad barcode barcode_target_layer 0)) = Some box /\
    box_eq box
      ((0, -2500),
       (2750 * inject_Z (Z.of_nat (String.length (upper line) + 2)) - 200, 2500))%Q).
  { rewrite Htokens in Hspan |- *.
    destruct (framed_barcad_box barcode_target_layer 0%Z tokens) as (box & Hbox & Heq).
    exists box. split; [exact Hbox|].
    eapply box_eq_trans; [exact Heq|].
    unfold box_eq. cbn [fst snd]. rewrite Hspan. repeat split; reflexivity. }
  destruct Hbox as (box & Hbox & Heq).
  split; [done|]. split; [exact Hbefore|]. split; [done|]. split; [done|].
  split; [done|]. split; [exact Hcount|]. split; [lia|].
  split.
  { destruct (barcad_cell barcode_target_layer 0%Z barcode) as (_ & -> & _).
    apply bars_rectangles_layers. }
  exists box. split; [exact Hbox|].
  destruct Heq as (H1 & _ & H3 & _). cbn [fst snd] in H1, H3.
  split; [exact H1|]. rewrite H3.
  assert (inject_Z (Z.of_nat (String.length (upper line) + 2)) <= 14)%Q.
  { change 14%Q with (inject_Z 14). rewrite <- Zle_Qle. lia. }
  lra.
Qed.

Lemma barcode_stage_cell_witness :
  exists before line output_gds_file barcode,
    [EmptyString; "ab12"%string; "merged"%string; "n"%string]
      = before ++ line :: output_gds_file :: ["n"%string] /\
    Forall barcode_rejected before /\
    "merged.gds"%string = output_name output_gds_file /\
    str2code (upper line) = inr barcode.
Proof.
  destruct (str2code "AB12") as [e|encoded] eqn:Hcode; [discriminate Hcode|].
  destruct (barcode_stage_cell
              [EmptyString; "ab12"%string; "merged"%string; "n"%string] [] 4
              "merged.gds" (barcad encoded 4 0) ["n"%string]
              [barcode_prompt; barcode_error_line (InvalidBarcodeLength EmptyString);
               barcode_prompt; barcode_valid_line "AB12"; output_prompt])
    as (before & line & file & barcode & H1 & H2 & H3 & H4 & _).
  - unfold barcode_stage.
    change (barcode_loop [EmptyString; "ab12"%string; "merged"%string; "n"%string] [])
      with (Done "AB12"%string ["merged"%string; "n"%string],
            [barcode_prompt; barcode_error_line (InvalidBarcodeLength EmptyString);
             barcode_prompt; barcode_valid_line "AB12"]).
    cbv beta iota zeta. rewrite Hcode. reflexivity.
  - exists before, line, file, barcode.
    split; [exact H1|]. split; [exact H2|]. split; [exact H3 | exact H4].
Defined.

(** ** More on the text cells *)

Lemma recenter_translation text :
  exists dx dy, recenter text = map (translate dx dy) text.
Proof.
  destruct text as [|first rest]; [by exists 0%Q, 0%Q|].
  unfold recenter. destruct (box_center _) as [cx cy]. by eexists _, _.
Qed.

Lemma translate_keeps dx dy (text : list Polygon) :
  Forall2 (fun poly moved =>
             layer moved = layer poly /\ datatype moved = datatype poly /\
             length (vertices moved) = length (vertices poly))
    text (map (translate dx dy) text).
Proof.
  induction text as [|poly text IH]; constructor; [|exact IH].
  unfold translate. cbn [layer datatype vertices]. by rewrite length_map.
Qed.

Lemma translation_box dx dy text b b' :
  bounding_box_of text = Some b ->
  bounding_box_of (map (translate dx dy) text) = Some b' ->
  box_eq b' (box_shift dx dy b).
Proof.
  destruct text as [|first rest]; [done|]. cbn [map bounding_box_of].
  intros [= <-] [= <-]. apply fold_box_union_shift, bounding_box_translate.
Qed.

(** X16: recentring moves the text without changing it otherwise: the label
    and the date cell hold as many polygons as the glyph rendering gave, each
    with its layer, datatype and number of vertices, and the union bounding
    box keeps its width and its height. *)
Theorem text_cells_keep_shape
    (gdstk_text : string -> Q -> point -> Z -> Z -> list Polygon)
    (today str2wrt : string) (layer_num datatype_num : Z) :
  let keeps (text : list Polygon) (cell : Cell) :=
    length (polygons cell) = length text /\
    Forall2 (fun poly moved =>
               layer moved = layer poly /\ datatype moved = datatype poly /\
               length (vertices moved) = length (vertices poly))
      text (polygons cell) /\
    (forall b b',
       bounding_box_of text = Some b ->
       bounding_box_of (polygons cell) = Some b' ->
       (fst (snd b') - fst (fst b') == fst (snd b) - fst (fst b) /\
        snd (snd b') - snd (fst b') == snd (snd b) - snd (fst b))%Q) in
  name (humancad gdstk_text str2wrt layer_num datatype_num) = "RETICLELABEL"%string /\
  keeps (gdstk_text str2wrt (4 * scale)%Q (0, 0)%Q layer_num datatype_num)
    (humancad gdstk_text str2wrt layer_num datatype_num) /\
  name (datecad gdstk_text today layer_num datatype_num) = "DATE"%string /\
  keeps (gdstk_text today (4 * scale)%Q (0, 0)%Q layer_num datatype_num)
    (datecad gdstk_text today layer_num datatype_num).
Proof.
  cbv zeta.
  assert (Hkeeps : forall text,
    length (recenter text) = length text /\
    Forall2 (fun poly moved =>
               layer moved = layer poly /\ datatype moved = datatype poly /\
               length (vertices moved) = length (vertices poly))
      text (recenter text) /\
    (forall b b',
       bounding_box_of text = Some b ->
       bounding_box_of (recenter text) = Some b' ->
       (fst (snd b') - fst (fst b') == fst (snd b) - fst (fst b) /\
        snd (snd b') - snd (fst b') == snd (snd b) - snd (fst b))%Q)).
  { intros text. destruct (recenter_translation text) as (dx & dy & ->).
    split; [apply length_map|]. split; [apply translate_keeps|].
    intros b b' Hb Hb'.
    destruct (translation_box _ _ _ _ _ Hb Hb') as (H1 & H2 & H3 & H4).
    destruct b as [[? ?] [? ?]]. unfold box_shift, translate_point in *.
    cbn [fst snd] in *. rewrite H1, H2, H3, H4. split; ring. }
  unfold humancad, datecad, add, new_cell. cbn [name polygons app].
  split; [reflexivity|]. split; [apply Hkeeps|].
  split; [reflexivity | apply Hkeeps].
Qed.

Lemma text_cells_keep_shape_witness :
  exists b b',
    bounding_box_of (square_glyphs "AB12" (4 * scale)%Q (0, 0)%Q 4 0) = Some b /\
    bounding_box_of (polygons (humancad square_glyphs "AB12" 4 0)) = Some b' /\
    (fst (snd b') - fst (fst b') == fst (snd b) - fst (fst b) /\
     snd (snd b') - snd (fst b') == snd (snd b) - snd (fst b))%Q.
Proof.
  eexists _, _. split; [reflexivity|]. split; [reflexivity|].
  apply (proj2 (proj2 (proj1 (proj2
           (text_cells_keep_shape square_glyphs EmptyString "AB12" 4 0)))));
    reflexivity.
Defined.
